(** * Beast-format Mode S frame synthesis (mlat/beastframes.py)

    A shallow embedding of the frame encoder and the properties its
    specification states about it, with the time matching of
    calc_position_error.py.

    Modelling choices.
    - Python numbers that hold physical quantities (degrees, feet, knots,
      feet per minute) are exact rationals [Q]: the embedding is the
      real-number reading of the float code, rounding of binary64
      arithmetic is not modelled.
    - Python integers are [Z]; [&], [|], [<<], [>>] are [Z.land], [Z.lor],
      [Z.shiftl], [Z.shiftr].
    - [None] for an optional argument is [None : option Q].
    - A [bytearray] is a [list Z]; storing into it checks the index and
      the byte range as Python does, and [raise] is the left summand of
      the [result] type.
    - [modes.crc.parity] is not part of this file's source: the frame
      builders take it as a parameter. *)

From Stdlib Require Import String Bool ZArith QArith Qround Qabs Lia Lqa List Btauto.
From coqutil Require Import Z.bitblast.
Import ListNotations.

Local Open Scope Z_scope.

(** ** Python numeric primitives *)

(** [x < y] on numbers. *)
Definition Qltb (x y : Q) : bool := negb (Qle_bool y x).

(** [int(x)] on a float: truncation toward zero. *)
Definition py_int (x : Q) : Z := Z.quot (Qnum x) (Zpos (Qden x)).

(** [math.floor(x)]. *)
Definition math_floor (x : Q) : Z := Qfloor x.

(** [math.fmod(x, y)]: [x - n*y] with [n] the quotient truncated toward
    zero, so the result carries the sign of [x]. *)
Definition math_fmod (x y : Q) : Q :=
  (x - inject_Z (py_int (x / y)) * y)%Q.


(** ** Scalar field encoders *)

Definition _encode_altitude (feet : option Q) : Z :=
  match feet with
  | None => 0
  | Some feet =>
      let index := py_int ((feet + 1012.5) / 25)%Q in
      let index := if index <? 0 then 0
                   else if index >? 0x7FF then 0x7FF
                   else index in
      Z.lor (Z.lor (Z.shiftl (Z.land index 0x7F0) 1) 0x010) (Z.land index 0x00F)
  end.

Definition _encode_velocity (knots : option Q) (supersonic : bool) : Z :=
  match knots with
  | None => 0
  | Some knots =>
      let '(sign, knots) :=
        if Qltb knots 0 then (0x400, (- knots)%Q) else (0, knots) in
      let knots := if supersonic then (knots / 4)%Q else knots in
      let value := py_int (knots + 1.5)%Q in
      let value := if value >? 1023 then 1023 else value in
      Z.lor value sign
  end.

Definition _encode_vrate (fpm : option Q) : Z :=
  match fpm with
  | None => 0
  | Some fpm =>
      let '(sign, fpm) :=
        if Qltb fpm 0 then (0x200, (- fpm)%Q) else (0, fpm) in
      let value := py_int (fpm / 64 + 1.5)%Q in
      let value := if value >? 511 then 511 else value in
      Z.lor value sign
  end.

(** ** CPR position encoder *)

(** Lookup table for the CPR NL() function
    (latitude breakpoints -> number of zones). *)
Definition _NL_TABLE : list (Q * Z) := [
  (10.47047130%Q, 59);
  (14.82817437%Q, 58);
  (18.18626357%Q, 57);
  (21.02939493%Q, 56);
  (23.54504487%Q, 55);
  (25.82924707%Q, 54);
  (27.93898710%Q, 53);
  (29.91135686%Q, 52);
  (31.77209708%Q, 51);
  (33.53993436%Q, 50);
  (35.22899598%Q, 49);
  (36.85025108%Q, 48);
  (38.41241892%Q, 47);
  (39.92256684%Q, 46);
  (41.38651832%Q, 45);
  (42.80914012%Q, 44);
  (44.19454951%Q, 43);
  (45.54626723%Q, 42);
  (46.86733252%Q, 41);
  (48.16039128%Q, 40);
  (49.42776439%Q, 39);
  (50.67150166%Q, 38);
  (51.89342469%Q, 37);
  (53.09516153%Q, 36);
  (54.27817472%Q, 35);
  (55.44378444%Q, 34);
  (56.59318756%Q, 33);
  (57.72747354%Q, 32);
  (58.84763776%Q, 31);
  (59.95459277%Q, 30);
  (61.04917774%Q, 29);
  (62.13216659%Q, 28);
  (63.20427479%Q, 27);
  (64.26616523%Q, 26);
  (65.31845310%Q, 25);
  (66.36171008%Q, 24);
  (67.39646774%Q, 23);
  (68.42322022%Q, 22);
  (69.44242631%Q, 21);
  (70.45451075%Q, 20);
  (71.45986473%Q, 19);
  (72.45884545%Q, 18);
  (73.45177442%Q, 17);
  (74.43893416%Q, 16);
  (75.42056257%Q, 15);
  (76.39684391%Q, 14);
  (77.36789461%Q, 13);
  (78.33374083%Q, 12);
  (79.29428225%Q, 11);
  (80.24923213%Q, 10);
  (81.19801349%Q, 9);
  (82.13956981%Q, 8);
  (83.07199445%Q, 7);
  (83.99173563%Q, 6);
  (84.89166191%Q, 5);
  (85.75541621%Q, 4);
  (86.53536998%Q, 3);
  (87.00000000%Q, 2);
  (90.00000000%Q, 1)
].

Definition _NL_LATS : list Q := map fst _NL_TABLE.
Definition _NL_VALS : list Z := map snd _NL_TABLE.

(** [bisect.bisect_left(a, x)]: the loop
    [while lo < hi: mid = (lo + hi) // 2;
       if a[mid] < x: lo = mid + 1 else: hi = mid]
    started at [lo = 0], [hi = len(a)].  The interval shrinks at every
    turn, so [length a] turns of fuel always reach [lo >= hi]. *)
Fixpoint bisect_loop (fuel : nat) (a : list Q) (x : Q) (lo hi : nat) : nat :=
  match fuel with
  | O => lo
  | S fuel' =>
      if (lo <? hi)%nat then
        let mid := ((lo + hi) / 2)%nat in
        if Qltb (nth mid a 0%Q) x
        then bisect_loop fuel' a x (S mid) hi
        else bisect_loop fuel' a x lo mid
      else lo
  end.

Definition bisect_left (a : list Q) (x : Q) : nat :=
  bisect_loop (length a) a x 0 (length a).

Definition _cpr_nl (lat : Q) : Z :=
  let lat := Qabs lat in
  let idx := bisect_left _NL_LATS lat in
  if (length _NL_VALS <=? idx)%nat then 1
  else nth idx _NL_VALS 0.

Definition _cpr_n (lat : Q) (odd : bool) : Z :=
  let nl := _cpr_nl lat - Z.b2z odd in
  if nl <? 1 then 1 else nl.

Definition _cpr_mod (value modulus : Q) : Q :=
  let remainder := math_fmod value modulus in
  if Qltb remainder 0 then (remainder + modulus)%Q else remainder.

Definition _cpr_encode (lat lon : Q) (odd : bool) : Z * Z :=
  let nb := Z.shiftl 1 17 in
  let dlat := (360 / (if odd then 59 else 60))%Q in
  let yz := math_floor (inject_Z nb * (_cpr_mod lat dlat / dlat) + 0.5)%Q in
  let rlat :=
    (dlat * (inject_Z yz / inject_Z nb + inject_Z (math_floor (lat / dlat))))%Q in
  let dlon := (360 / inject_Z (_cpr_n rlat odd))%Q in
  let xz := math_floor (inject_Z nb * (_cpr_mod lon dlon / dlon) + 0.5)%Q in
  (Z.land yz 0x1FFFF, Z.land xz 0x1FFFF).

(** ** Exceptions and byte arrays *)

Inductive exn : Type :=
| ValueError (msg : string)
| IndexError (msg : string).

Definition result (A : Type) : Type := (exn + A)%type.

Definition ret {A : Type} (a : A) : result A := inr a.
Definition raise {A : Type} (e : exn) : result A := inl e.

Definition bind {A B : Type} (c : result A) (k : A -> result B) : result B :=
  match c with
  | inl e => inl e
  | inr a => k a
  end.

Notation "x <- c ;; k" := (bind c (fun x => k))
  (at level 61, c at next level, right associativity).
Notation "' pat <- c ;; k" := (bind c (fun x => match x with pat => k end))
  (at level 61, pat pattern, c at next level, right associativity).

(** [bytearray(n)]: [n] zero bytes. *)
Definition bytearray (n : nat) : list Z := repeat 0 n.

Fixpoint list_set (i : nat) (v : Z) (l : list Z) : list Z :=
  match l, i with
  | [], _ => []
  | _ :: t, O => v :: t
  | h :: t, S i' => h :: list_set i' v t
  end.

(** [frame[i]]. *)
Definition getitem (frame : list Z) (i : nat) : result Z :=
  match nth_error frame i with
  | Some b => ret b
  | None => raise (IndexError "bytearray index out of range")
  end.

(** [frame[i] = v]: Python refuses an index past the end and a value
    outside [range(0, 256)]. *)
Definition setitem (frame : list Z) (i : nat) (v : Z) : result (list Z) :=
  if (i <? length frame)%nat then
    if (0 <=? v) && (v <? 256) then ret (list_set i v frame)
    else raise (ValueError "byte must be in range(0, 256)")
  else raise (IndexError "bytearray index out of range").

(** ** Frame assembly *)

Definition DF18 : string := "DF18".
Definition DF18ANON : string := "DF18ANON".
Definition DF18TRACK : string := "DF18TRACK".

(** The keyword arguments [anonymous] and [track] of the source are never
    read and no caller passes them; they are left out. *)
Definition _make_frame_prefix (df : string) : result (Z * Z) :=
  if String.eqb df DF18 then ret (Z.lor (Z.shiftl 18 3) 2, 0)
  else if String.eqb df DF18ANON then ret (Z.lor (Z.shiftl 18 3) 5, 0)
  else if String.eqb df DF18TRACK then ret (Z.lor (Z.shiftl 18 3) 2, 1)
  else raise (ValueError ("Unsupported DF " ++ df)).

Section Frames.

(** [modes.crc.parity], the external checksum over the leading bytes. *)
Variable modes_crc_parity : list Z -> Z.

Definition _apply_crc (frame : list Z) : result (list Z) :=
  let parity := modes_crc_parity (firstn 11 frame) in
  frame <- setitem frame 11 (Z.land (Z.shiftr parity 16) 0xFF) ;;
  frame <- setitem frame 12 (Z.land (Z.shiftr parity 8) 0xFF) ;;
  frame <- setitem frame 13 (Z.land parity 0xFF) ;;
  ret frame.

Definition _make_position_frame
    (metype addr elat elon ealt : Z) (oddflag : bool) (df : string)
    : result (list Z) :=
  '(prefix, imf) <- _make_frame_prefix df ;;
  let frame := bytearray 14 in
  frame <- setitem frame 0 prefix ;;
  frame <- setitem frame 1 (Z.land (Z.shiftr addr 16) 0xFF) ;;
  frame <- setitem frame 2 (Z.land (Z.shiftr addr 8) 0xFF) ;;
  frame <- setitem frame 3 (Z.land addr 0xFF) ;;
  frame <- setitem frame 4 (Z.lor (Z.shiftl metype 3) imf) ;;
  frame <- setitem frame 5 (Z.land (Z.shiftr ealt 4) 0xFF) ;;
  frame <- setitem frame 6 (Z.shiftl (Z.land ealt 0x0F) 4) ;;
  frame <- (if oddflag
            then b <- getitem frame 6 ;; setitem frame 6 (Z.lor b 0x04)
            else ret frame) ;;
  b <- getitem frame 6 ;;
  frame <- setitem frame 6 (Z.lor b (Z.land (Z.shiftr elat 15) 0x03)) ;;
  frame <- setitem frame 7 (Z.land (Z.shiftr elat 7) 0xFF) ;;
  frame <- setitem frame 8 (Z.shiftl (Z.land elat 0x7F) 1) ;;
  b <- getitem frame 8 ;;
  frame <- setitem frame 8 (Z.lor b (Z.land (Z.shiftr elon 16) 0x01)) ;;
  frame <- setitem frame 9 (Z.land (Z.shiftr elon 8) 0xFF) ;;
  frame <- setitem frame 10 (Z.land elon 0xFF) ;;
  _apply_crc frame.

Definition make_position_frame_pair
    (addr : Z) (lat lon : Q) (altitude_ft : option Q) (df : string)
    : result (list Z * list Z) :=
  let ealt := _encode_altitude altitude_ft in
  let '(even_lat, even_lon) := _cpr_encode lat lon false in
  let '(odd_lat, odd_lon) := _cpr_encode lat lon true in
  even <- _make_position_frame 18 addr even_lat even_lon ealt false df ;;
  odd <- _make_position_frame 18 addr odd_lat odd_lon ealt true df ;;
  ret (even, odd).

Definition make_altitude_only_frame
    (addr : Z) (altitude_ft : option Q) (df : string) : result (list Z) :=
  _make_position_frame 0 addr 0 0 (_encode_altitude altitude_ft) false df.

Definition make_velocity_frame
    (addr : Z) (nsvel_knots ewvel_knots vrate_fpm : option Q) (df : string)
    : result (list Z) :=
  let velocities := [] in
  let velocities :=
    match nsvel_knots with
    | Some v => velocities ++ [Qabs v]
    | None => velocities
    end in
  let velocities :=
    match ewvel_knots with
    | Some v => velocities ++ [Qabs v]
    | None => velocities
    end in
  let supersonic := existsb (fun v => Qltb 1000 v) velocities in
  let e_ns := _encode_velocity nsvel_knots supersonic in
  let e_ew := _encode_velocity ewvel_knots supersonic in
  let e_vr := _encode_vrate vrate_fpm in
  '(prefix, imf) <- _make_frame_prefix df ;;
  let frame := bytearray 14 in
  frame <- setitem frame 0 prefix ;;
  frame <- setitem frame 1 (Z.land (Z.shiftr addr 16) 0xFF) ;;
  frame <- setitem frame 2 (Z.land (Z.shiftr addr 8) 0xFF) ;;
  frame <- setitem frame 3 (Z.land addr 0xFF) ;;
  frame <- setitem frame 4 (Z.lor (Z.shiftl 19 3) (if supersonic then 2 else 1)) ;;
  frame <- setitem frame 5
             (Z.lor (Z.shiftl imf 7) (Z.land (Z.shiftr e_ew 8) 0x07)) ;;
  frame <- setitem frame 6 (Z.land e_ew 0xFF) ;;
  frame <- setitem frame 7 (Z.land (Z.shiftr e_ns 3) 0xFF) ;;
  frame <- setitem frame 8
             (Z.lor (Z.lor (Z.shiftl (Z.land e_ns 0x07) 5) 0x10)
                    (Z.land (Z.shiftr e_vr 6) 0x0F)) ;;
  frame <- setitem frame 9 (Z.shiftl (Z.land e_vr 0x3F) 2) ;;
  frame <- setitem frame 10 0 ;;
  _apply_crc frame.

End Frames.

(** ** The Mode S checksum *)

(** Modelled from the spec: [modes.crc.parity] is imported from a module
    that is not part of this file's source; the specification fixes it as
    a conforming 24-bit Mode S checksum over the leading bytes.  This is
    the standard bitwise CRC with generator polynomial 0x1FFF409, most
    significant bit first, starting from zero. *)
Fixpoint crc_shift (n : nat) (crc : Z) : Z :=
  match n with
  | O => crc
  | S n' =>
      let crc' := Z.shiftl crc 1 in
      crc_shift n' (if Z.testbit crc 23
                    then Z.land (Z.lxor crc' 0xFFF409) 0xFFFFFF
                    else Z.land crc' 0xFFFFFF)
  end.

Definition mode_s_parity (data : list Z) : Z :=
  fold_left (fun crc b => crc_shift 8 (Z.lxor crc (Z.shiftl b 16))) data 0.

(** ** The specification's formulas, as worded *)

Definition clamp (lo hi v : Z) : Z := Z.max lo (Z.min hi v).

(** The Q-bit layout of the altitude field for an 11-bit index. *)
Definition altitude_field (index : Z) : Z :=
  Z.lor (Z.lor (Z.shiftl (Z.land index 0x7F0) 1) 0x010) (Z.land index 0x00F).



(** The row a linear scan finds first: the first breakpoint that is at
    least [x]. *)
Definition first_breakpoint (x : Q) (rows : list (Q * Z)) : option (Q * Z) :=
  find (fun row => Qle_bool x (fst row)) rows.

(** Ascending order of a list of numbers. *)
Fixpoint ascending (a : list Q) : bool :=
  match a with
  | [] => true
  | x :: t =>
      match t with
      | [] => true
      | y :: _ => Qle_bool x y && ascending t
      end
  end.

(** ** Auxiliary definitions for the statements *)

(** [p] holds of every integer in [0, n). *)
Fixpoint all_below (n : nat) (p : Z -> bool) : bool :=
  match n with
  | O => true
  | S n' => p (Z.of_nat n') && all_below n' p
  end.

(** The frame variants [_make_frame_prefix] accepts. *)
Definition supported (df : string) : Prop :=
  df = DF18 \/ df = DF18ANON \/ df = DF18TRACK.

(** Byte [i] of a frame. *)
Definition byte (frame : list Z) (i : nat) : Z := nth i frame 0.

(** The 24-bit big-endian value held in bytes 11, 12, 13. *)
Definition trailer (frame : list Z) : Z :=
  byte frame 11 * 65536 + byte frame 12 * 256 + byte frame 13.

(** Closed forms of the assembled frames, used to state what the
    builders return: the eleven leading bytes of a position or altitude
    frame, of a velocity frame, and a body followed by its checksum. *)
Definition position_body
    (prefix imf metype addr elat elon ealt : Z) (oddflag : bool) : list Z :=
  [ prefix;
    Z.land (Z.shiftr addr 16) 0xFF;
    Z.land (Z.shiftr addr 8) 0xFF;
    Z.land addr 0xFF;
    Z.lor (Z.shiftl metype 3) imf;
    Z.land (Z.shiftr ealt 4) 0xFF;
    Z.lor (if oddflag
           then Z.lor (Z.shiftl (Z.land ealt 0x0F) 4) 0x04
           else Z.shiftl (Z.land ealt 0x0F) 4)
          (Z.land (Z.shiftr elat 15) 0x03);
    Z.land (Z.shiftr elat 7) 0xFF;
    Z.lor (Z.shiftl (Z.land elat 0x7F) 1) (Z.land (Z.shiftr elon 16) 0x01);
    Z.land (Z.shiftr elon 8) 0xFF;
    Z.land elon 0xFF ].

Definition velocity_body
    (prefix imf addr e_ns e_ew e_vr : Z) (supersonic : bool) : list Z :=
  [ prefix;
    Z.land (Z.shiftr addr 16) 0xFF;
    Z.land (Z.shiftr addr 8) 0xFF;
    Z.land addr 0xFF;
    Z.lor (Z.shiftl 19 3) (if supersonic then 2 else 1);
    Z.lor (Z.shiftl imf 7) (Z.land (Z.shiftr e_ew 8) 0x07);
    Z.land e_ew 0xFF;
    Z.land (Z.shiftr e_ns 3) 0xFF;
    Z.lor (Z.lor (Z.shiftl (Z.land e_ns 0x07) 5) 0x10)
          (Z.land (Z.shiftr e_vr 6) 0x0F);
    Z.shiftl (Z.land e_vr 0x3F) 2;
    0 ].

Definition seal (parity : list Z -> Z) (body : list Z) : list Z :=
  let p := parity body in
  body ++ [ Z.land (Z.shiftr p 16) 0xFF;
            Z.land (Z.shiftr p 8) 0xFF;
            Z.land p 0xFF ].

(** The supersonic decision of [make_velocity_frame]. *)
Definition is_supersonic (nsvel_knots ewvel_knots : option Q) : bool :=
  match nsvel_knots with Some v => Qltb 1000 (Qabs v) | None => false end
  || match ewvel_knots with Some v => Qltb 1000 (Qabs v) | None => false end.

(** Fields read back from an assembled frame, at the bit offsets of the
    Extended Squitter ME layout. *)
Definition altitude_of (frame : list Z) : Z :=
  Z.lor (Z.shiftl (byte frame 5) 4) (Z.shiftr (byte frame 6) 4).

Definition cpr_odd_flag (frame : list Z) : bool :=
  Z.testbit (byte frame 6) 2.

Definition cpr_lat_of (frame : list Z) : Z :=
  Z.lor (Z.lor (Z.shiftl (Z.land (byte frame 6) 0x03) 15)
               (Z.shiftl (byte frame 7) 7))
        (Z.shiftr (byte frame 8) 1).

Definition cpr_lon_of (frame : list Z) : Z :=
  Z.lor (Z.lor (Z.shiftl (Z.land (byte frame 8) 0x01) 16)
               (Z.shiftl (byte frame 9) 8))
        (byte frame 10).

Definition subtype_of (frame : list Z) : Z := Z.land (byte frame 4) 0x07.

Definition ew_velocity_of (frame : list Z) : Z :=
  Z.lor (Z.shiftl (Z.land (byte frame 5) 0x07) 8) (byte frame 6).

Definition ns_velocity_of (frame : list Z) : Z :=
  Z.lor (Z.shiftl (byte frame 7) 3) (Z.shiftr (byte frame 8) 5).

Definition vrate_of (frame : list Z) : Z :=
  Z.lor (Z.shiftl (Z.land (byte frame 8) 0x0F) 6) (Z.shiftr (byte frame 9) 2).

(** Bytes 11 to 13 hold, big-endian, the checksum of bytes 0 to 10. *)
Definition checksum_in_trailer (parity : list Z -> Z) (frame : list Z) : Prop :=
  let p := parity (firstn 11 frame) in
  byte frame 11 = Z.land (Z.shiftr p 16) 0xFF /\
  byte frame 12 = Z.land (Z.shiftr p 8) 0xFF /\
  byte frame 13 = Z.land p 0xFF /\
  trailer frame = p mod 2 ^ 24 /\
  (0 <= p < 2 ^ 24 -> trailer frame = p).



(** Zone counts never increase along a table and stay at least 1. *)
Fixpoint zone_counts_descend (rows : list (Q * Z)) : bool :=
  match rows with
  | [] => true
  | (_, n) :: t =>
      (1 <=? n) && forallb (fun row => snd row <=? n) t && zone_counts_descend t
  end.

(** The zone count a table yields for [x]: that of the first breakpoint at
    least [x], or 1 past the last one. *)
Definition zone_count_at (x : Q) (rows : list (Q * Z)) : Z :=
  match first_breakpoint x rows with
  | Some row => snd row
  | None => 1
  end.

(** ** Matching MLAT and ADS-B positions (calc_position_error.py) *)






(** * Properties *)

(** ** Comparisons and truncation *)

Lemma Qltb_lt (x y : Q) : Qltb x y = true <-> (x < y)%Q.
Proof.
  unfold Qltb. rewrite negb_true_iff.
  split; intro H.
  - apply Qnot_le_lt. intro Hle. apply Qle_bool_iff in Hle. congruence.
  - destruct (Qle_bool y x) eqn:E; [|reflexivity].
    apply Qle_bool_iff in E. exfalso. exact (Qlt_not_le _ _ H E).
Qed.

Lemma Qltb_ge (x y : Q) : Qltb x y = false <-> (y <= x)%Q.
Proof.
  unfold Qltb. rewrite negb_false_iff. apply Qle_bool_iff.
Qed.

Lemma Qabs_branch (x : Q) : Qabs x = if Qltb x 0 then (- x)%Q else x.
Proof.
  destruct x as [n d]. unfold Qltb, Qle_bool, Qabs, Qopp. simpl.
  destruct n; reflexivity.
Qed.

(** [int()] rounds toward zero: down on non-negative numbers ... *)
Lemma py_int_nonneg (x : Q) :
  (0 <= x)%Q ->
  0 <= py_int x /\ (inject_Z (py_int x) <= x)%Q /\ (x < inject_Z (py_int x + 1))%Q.
Proof.
  destruct x as [n d]. unfold py_int, Qle, Qlt, inject_Z. simpl.
  intro Hn. rewrite Z.mul_1_r in Hn.
  assert (Hd : 0 < Z.pos d) by lia.
  pose proof (Z.quot_rem' n (Z.pos d)) as E.
  pose proof (Z.rem_bound_pos n (Z.pos d) Hn Hd) as B.
  pose proof (Z.quot_pos n (Z.pos d) Hn Hd) as P.
  repeat split; nia.
Qed.

(** ... and up on non-positive ones. *)
Lemma py_int_nonpos (x : Q) :
  (x <= 0)%Q ->
  py_int x <= 0 /\ (x <= inject_Z (py_int x))%Q /\ (inject_Z (py_int x - 1) < x)%Q.
Proof.
  destruct x as [n d]. unfold py_int, Qle, Qlt, inject_Z. simpl.
  intro Hn. rewrite Z.mul_1_r in Hn.
  assert (Hd : 0 < Z.pos d) by lia.
  pose proof (Z.quot_rem' n (Z.pos d)) as E.
  pose proof (Z.rem_bound_pos_neg n (Z.pos d) Hd Hn) as B.
  assert (P : n ÷ Z.pos d <= 0).
  { rewrite <- (Z.opp_involutive n), Z.quot_opp_l by lia.
    pose proof (Z.quot_pos (- n) (Z.pos d)). lia. }
  repeat split; nia.
Qed.

(** A biased magnitude [m + 1.5] with [m >= 0] truncates to at least 1. *)
Lemma py_int_biased_pos (m : Q) : (0 <= m)%Q -> 1 <= py_int (m + 1.5)%Q.
Proof.
  intro Hm.
  assert (H0 : (0 <= m + 1.5)%Q) by lra.
  destruct (py_int_nonneg _ H0) as (_ & _ & Hlt).
  set (k := py_int (m + 1.5)%Q) in *.
  assert (Hq : (1.5 < inject_Z (k + 1))%Q).
  { eapply Qle_lt_trans; [|exact Hlt]. lra. }
  unfold Qlt, inject_Z in Hq. simpl in Hq. lia.
Qed.

Lemma all_below_spec (n : nat) (p : Z -> bool) :
  all_below n p = true -> forall z, 0 <= z < Z.of_nat n -> p z = true.
Proof.
  induction n as [|n IH]; intros H z Hz.
  - lia.
  - cbn [all_below] in H. apply andb_true_iff in H as [Hn Hrest].
    destruct (Z.eq_dec z (Z.of_nat n)) as [->|Hne]; [exact Hn|].
    apply IH; [exact Hrest|lia].
Qed.

(** [int()] agrees on equal rationals, whatever their representation. *)
Lemma py_int_floor (x : Q) :
  py_int x = if Qle_bool 0 x then Qfloor x else - Qfloor (- x).
Proof.
  destruct x as [n d]. unfold py_int, Qle_bool, Qfloor, Qopp. simpl.
  rewrite Z.mul_1_r.
  destruct (Z.leb_spec 0 n) as [Hn|Hn].
  - apply Z.quot_div_nonneg; lia.
  - rewrite <- (Z.quot_div_nonneg (- n)) by lia.
    rewrite Z.quot_opp_l by lia. lia.
Qed.

#[export] Instance py_int_comp : Proper (Qeq ==> eq) py_int.
Proof.
  intros x y E. rewrite !py_int_floor.
  rewrite (Qleb_comp 0%Q 0%Q (Qeq_refl 0) x y E).
  destruct (Qle_bool 0 y).
  - apply Qfloor_comp, E.
  - f_equal. apply Qfloor_comp. rewrite E. reflexivity.
Qed.

(** ** Bit fields *)

Lemma land_mask_byte (a m : Z) :
  Z.land m (Z.ones 8) = m -> 0 <= Z.land a m < 256.
Proof.
  intro Hm. rewrite <- Hm, Z.land_assoc, Z.land_ones by lia.
  apply Z.mod_pos_bound. reflexivity.
Qed.

Lemma lor_byte (a b : Z) :
  0 <= a < 256 -> 0 <= b < 256 -> 0 <= Z.lor a b < 256.
Proof.
  intros Ha Hb.
  rewrite <- (Z.mod_small a (2 ^ 8)), <- (Z.mod_small b (2 ^ 8)) by exact Ha || exact Hb.
  rewrite <- !Z.land_ones, <- Z.land_lor_distr_l, Z.land_ones by lia.
  apply Z.mod_pos_bound. reflexivity.
Qed.

Lemma shiftl_mask_byte (a m k : Z) :
  Z.land (Z.shiftl m k) (Z.ones 8) = Z.shiftl m k ->
  0 <= Z.shiftl (Z.land a m) k < 256.
Proof.
  intro Hm. rewrite Z.shiftl_land. apply land_mask_byte, Hm.
Qed.

(** A value below [2^n] and the bit [2^n] do not overlap. *)
Lemma lor_high_bit (n v : Z) :
  0 <= n -> 0 <= v < 2 ^ n -> Z.lor v (2 ^ n) = v + 2 ^ n.
Proof.
  intros Hn Hv.
  assert (Hd : Z.land v (2 ^ n) = 0).
  { apply Z.bits_inj'. intros i Hi.
    rewrite Z.land_spec, Z.bits_0, Z.pow2_bits_eqb by lia.
    destruct (Z.eqb_spec n i) as [<-|Hne]; [|apply andb_false_r].
    rewrite andb_true_r.
    destruct (Z.eq_dec v 0) as [->|Hv0]; [apply Z.bits_0|].
    apply Z.bits_above_log2; [lia|].
    apply Z.log2_lt_pow2; lia. }
  rewrite <- Z.lxor_lor by exact Hd.
  symmetry. apply Z.add_nocarry_lxor, Hd.
Qed.


Lemma land_low_high (n v : Z) (s : bool) :
  0 <= n -> 0 <= v < 2 ^ n ->
  Z.land (Z.lor v (if s then 2 ^ n else 0)) (Z.ones n) = v.
Proof.
  intros Hn Hv. destruct s.
  - rewrite lor_high_bit, Z.land_ones by assumption.
    rewrite <- (Z.mul_1_l (2 ^ n)) at 1.
    rewrite Z.mod_add by lia. apply Z.mod_small, Hv.
  - rewrite Z.lor_0_r, Z.land_ones by assumption. apply Z.mod_small, Hv.
Qed.

(** ** Scalar field encoders *)

Lemma clamp_upper (hi v : Z) : (if v >? hi then hi else v) = Z.min hi v.
Proof. destruct (Z.gtb_spec v hi); lia. Qed.

Lemma encode_velocity_closed (v : Q) (s : bool) :
  let magnitude :=
    Z.min 1023 (py_int ((if s then Qabs v / 4 else Qabs v) + 1.5)%Q) in
  1 <= magnitude <= 1023 /\
  _encode_velocity (Some v) s
  = Z.lor magnitude (if Qltb v 0 then 2 ^ 10 else 0).
Proof.
  intro magnitude. split.
  - assert (Hm : (0 <= (if s then Qabs v / 4 else Qabs v))%Q).
    { pose proof (Qabs_nonneg v). destruct s; [|assumption].
      apply Qle_shift_div_l; [reflexivity|]. lra. }
    pose proof (py_int_biased_pos _ Hm). subst magnitude. lia.
  - subst magnitude. unfold _encode_velocity.
    rewrite Qabs_branch.
    destruct (Qltb v 0); destruct s; cbv zeta; rewrite clamp_upper; reflexivity.
Qed.

Lemma encode_vrate_closed (fpm : Q) :
  let magnitude := Z.min 511 (py_int (Qabs fpm / 64 + 1.5)%Q) in
  1 <= magnitude <= 511 /\
  _encode_vrate (Some fpm)
  = Z.lor magnitude (if Qltb fpm 0 then 2 ^ 9 else 0).
Proof.
  intro magnitude. split.
  - assert (Hm : (0 <= Qabs fpm / 64)%Q).
    { pose proof (Qabs_nonneg fpm).
      apply Qle_shift_div_l; [reflexivity|]. lra. }
    pose proof (py_int_biased_pos _ Hm). subst magnitude. lia.
  - subst magnitude. unfold _encode_vrate.
    rewrite Qabs_branch.
    destruct (Qltb fpm 0); cbv zeta; rewrite clamp_upper; reflexivity.
Qed.


Lemma encode_altitude_closed (feet : Q) :
  _encode_altitude (Some feet)
  = altitude_field (clamp 0 0x7FF (py_int ((feet + 1012.5) / 25)%Q)).
Proof.
  unfold _encode_altitude, altitude_field, clamp. cbv zeta.
  set (raw := py_int _). f_equal; [f_equal; f_equal; f_equal|f_equal];
    destruct (Z.ltb_spec raw 0), (Z.gtb_spec raw 2047); lia.
Qed.

(** The layout of the field for every 11-bit index: seven upper bits, the
    Q-bit at bit 4, four lower bits. *)
Lemma altitude_field_layout (index : Z) :
  0 <= index <= 0x7FF ->
  altitude_field index = 32 * (index / 16) + 16 + index mod 16 /\
  Z.testbit (altitude_field index) 4 = true.
Proof.
  intro Hi.
  assert (Hall : all_below 2048 (fun i =>
             (altitude_field i =? 32 * (i / 16) + 16 + i mod 16)
             && Z.testbit (altitude_field i) 4) = true)
    by (vm_compute; reflexivity).
  pose proof (all_below_spec _ _ Hall index ltac:(lia)) as H.
  apply andb_true_iff in H as [Hsum Hbit]. apply Z.eqb_eq in Hsum.
  split; assumption.
Qed.




(** C9: a component of magnitude 1021.5 kt, encoded without the supersonic
    scaling, has the maximum magnitude field 1023. *)
Theorem encode_velocity_saturates (knots : Q) :
  (Qabs knots == 1021.5)%Q ->
  Z.land (_encode_velocity (Some knots) false) 0x3FF = 1023.
Proof.
  intro Habs.
  destruct (encode_velocity_closed knots false) as [Hm Hcode].
  cbv zeta in Hm, Hcode. rewrite Hcode.
  rewrite (land_low_high 10) by (change (2 ^ 10) with 1024; lia).
  assert (E : (Qabs knots + 1.5 == 1023)%Q) by (rewrite Habs; reflexivity).
  rewrite E. reflexivity.
Qed.

Lemma encode_velocity_saturates_witness :
  (Qabs (-1021.5) == 1021.5)%Q /\
  Z.land (_encode_velocity (Some (-1021.5)%Q) false) 0x3FF = 1023.
Proof.
  split; [reflexivity|].
  apply (encode_velocity_saturates (-1021.5)%Q). reflexivity.
Defined.

(** ** Frame variants *)

Lemma make_frame_prefix_supported (df : string) :
  supported df ->
  exists prefix imf,
    _make_frame_prefix df = inr (prefix, imf) /\
    (prefix = 146 \/ prefix = 149) /\ (imf = 0 \/ imf = 1).
Proof.
  intros [-> | [-> | ->]]; eexists; eexists;
    (split; [reflexivity|]); cbn; lia.
Qed.

Lemma make_frame_prefix_unsupported (df : string) :
  ~ supported df ->
  _make_frame_prefix df = inl (ValueError ("Unsupported DF " ++ df)).
Proof.
  intro Hno. unfold _make_frame_prefix.
  destruct (String.eqb_spec df DF18) as [E|_];
    [exfalso; apply Hno; left; exact E|].
  destruct (String.eqb_spec df DF18ANON) as [E|_];
    [exfalso; apply Hno; right; left; exact E|].
  destruct (String.eqb_spec df DF18TRACK) as [E|_];
    [exfalso; apply Hno; right; right; exact E|].
  reflexivity.
Qed.

Lemma make_frame_prefix_inr (df : string) (prefix imf : Z) :
  _make_frame_prefix df = inr (prefix, imf) ->
  supported df /\ (prefix = 146 \/ prefix = 149) /\ (imf = 0 \/ imf = 1).
Proof.
  unfold _make_frame_prefix, supported.
  destruct (String.eqb_spec df DF18) as [E|_];
    [intro H; injection H as <- <-; cbn; auto|].
  destruct (String.eqb_spec df DF18ANON) as [E|_];
    [intro H; injection H as <- <-; cbn; auto|].
  destruct (String.eqb_spec df DF18TRACK) as [E|_];
    [intro H; injection H as <- <-; cbn; auto|].
  discriminate.
Qed.

(** ** Stores into the frame *)

Lemma setitem_ok (frame : list Z) (i : nat) (v : Z) :
  (i < length frame)%nat -> 0 <= v < 256 ->
  setitem frame i v = inr (list_set i v frame).
Proof.
  intros Hi Hv. unfold setitem.
  destruct (Nat.ltb_spec i (length frame)) as [_|]; [|lia].
  destruct (Z.leb_spec 0 v); [|lia].
  destruct (Z.ltb_spec v 256); [|lia].
  reflexivity.
Qed.

Ltac byte_range :=
  lazymatch goal with
  | |- 0 <= Z.lor _ _ < 256 => apply lor_byte; byte_range
  | |- 0 <= Z.land _ _ < 256 => apply land_mask_byte; reflexivity
  | |- 0 <= Z.shiftl (Z.land _ _) _ < 256 => apply shiftl_mask_byte; reflexivity
  | |- 0 <= (if ?b then _ else _) < 256 => destruct b; byte_range
  | |- 0 <= Z.shiftl ?m 3 < 256 =>
      rewrite Z.shiftl_mul_pow2 by lia; change (2 ^ 3) with 8; lia
  | |- 0 <= Z.shiftl ?m 7 < 256 =>
      rewrite Z.shiftl_mul_pow2 by lia; change (2 ^ 7) with 128; lia
  | |- _ => lia
  end.

Ltac store :=
  rewrite setitem_ok;
  [ cbn [bind ret list_set getitem nth_error]
  | cbn [length]; lia
  | byte_range ].

Lemma apply_crc_seals (parity : list Z -> Z) (b0 b1 b2 b3 b4 b5 b6 b7 b8 b9 b10 c1 c2 c3 : Z) :
  _apply_crc parity [b0; b1; b2; b3; b4; b5; b6; b7; b8; b9; b10; c1; c2; c3]
  = inr (seal parity [b0; b1; b2; b3; b4; b5; b6; b7; b8; b9; b10]).
Proof.
  unfold _apply_crc, seal. cbn [firstn]. cbv zeta.
  do 3 store. reflexivity.
Qed.

Lemma make_position_frame_closed
    (parity : list Z -> Z) (metype addr elat elon ealt : Z) (oddflag : bool)
    (df : string) (prefix imf : Z) :
  _make_frame_prefix df = inr (prefix, imf) ->
  0 <= metype < 32 ->
  _make_position_frame parity metype addr elat elon ealt oddflag df
  = inr (seal parity (position_body prefix imf metype addr elat elon ealt oddflag)).
Proof.
  intros Hdf Hty.
  destruct (make_frame_prefix_inr _ _ _ Hdf) as (_ & Hp & Hi).
  unfold _make_position_frame. rewrite Hdf.
  cbn [bind bytearray repeat]. cbv zeta.
  do 7 store.
  destruct oddflag; cbn [bind ret getitem nth_error]; repeat store;
    apply apply_crc_seals.
Qed.

Lemma is_supersonic_eq (ns ew : option Q) :
  existsb (fun v => Qltb 1000 v)
    (match ew with
     | Some v => (match ns with Some w => [] ++ [Qabs w] | None => [] end) ++ [Qabs v]
     | None => match ns with Some w => [] ++ [Qabs w] | None => [] end
     end)
  = is_supersonic ns ew.
Proof.
  unfold is_supersonic. destruct ns, ew; cbn; rewrite ?orb_false_r; reflexivity.
Qed.

Lemma make_velocity_frame_closed
    (parity : list Z -> Z) (addr : Z) (ns ew vr : option Q)
    (df : string) (prefix imf : Z) :
  _make_frame_prefix df = inr (prefix, imf) ->
  let supersonic := is_supersonic ns ew in
  make_velocity_frame parity addr ns ew vr df
  = inr (seal parity
           (velocity_body prefix imf addr
              (_encode_velocity ns supersonic)
              (_encode_velocity ew supersonic)
              (_encode_vrate vr) supersonic)).
Proof.
  intros Hdf supersonic.
  destruct (make_frame_prefix_inr _ _ _ Hdf) as (_ & Hp & Hi).
  unfold make_velocity_frame. cbv zeta.
  rewrite is_supersonic_eq. fold supersonic. rewrite Hdf.
  cbn [bind bytearray repeat].
  repeat store. apply apply_crc_seals.
Qed.

(** ** Reading fields back *)

Lemma bits_above (n v i : Z) :
  0 <= n -> 0 <= v < 2 ^ n -> n <= i -> Z.testbit v i = false.
Proof.
  intros Hn Hv Hi.
  destruct (Z.eq_dec v 0) as [->|Hv0]; [apply Z.bits_0|].
  apply Z.bits_above_log2; [lia|].
  assert (Z.log2 v < n) by (apply Z.log2_lt_pow2; lia). lia.
Qed.

Ltac mask_ones :=
  repeat match goal with
  | |- context [Z.land ?a 0xFF] => change (Z.land a 0xFF) with (Z.land a (Z.ones 8))
  | |- context [Z.land ?a 0x7F] => change (Z.land a 0x7F) with (Z.land a (Z.ones 7))
  | |- context [Z.land ?a 0x3F] => change (Z.land a 0x3F) with (Z.land a (Z.ones 6))
  | |- context [Z.land ?a 0x0F] => change (Z.land a 0x0F) with (Z.land a (Z.ones 4))
  | |- context [Z.land ?a 0x07] => change (Z.land a 0x07) with (Z.land a (Z.ones 3))
  | |- context [Z.land ?a 0x03] => change (Z.land a 0x03) with (Z.land a (Z.ones 2))
  | |- context [Z.land ?a 0x01] => change (Z.land a 0x01) with (Z.land a (Z.ones 1))
  | |- context [Z.lor ?a 0x04] => change (Z.lor a 0x04) with (Z.lor a (2 ^ 2))
  | |- context [Z.lor ?a 0x10] => change (Z.lor a 0x10) with (Z.lor a (2 ^ 4))
  end.

Ltac bits_by H :=
  mask_ones; Z.bitblast;
  repeat match goal with
         | |- context [?a =? ?b] => destruct (Z.eqb_spec a b)
         end;
  try (exfalso; lia);
  rewrite ?Z.testbit_neg_r by lia; rewrite ?H by lia;
  try reflexivity; try btauto.

Lemma cpr_lat_of_position_body
    (prefix imf metype addr elat elon ealt : Z) (oddflag : bool) :
  0 <= elat < 2 ^ 17 ->
  cpr_lat_of (position_body prefix imf metype addr elat elon ealt oddflag) = elat.
Proof.
  intro He.
  assert (Hhi : forall i, 17 <= i -> Z.testbit elat i = false)
    by (intro i; apply bits_above; [lia|exact He]).
  unfold cpr_lat_of, position_body, byte. cbn [nth].
  destruct oddflag; bits_by Hhi.
Qed.

Lemma cpr_lon_of_position_body
    (prefix imf metype addr elat elon ealt : Z) (oddflag : bool) :
  0 <= elon < 2 ^ 17 ->
  cpr_lon_of (position_body prefix imf metype addr elat elon ealt oddflag) = elon.
Proof.
  intro He.
  assert (Hhi : forall i, 17 <= i -> Z.testbit elon i = false)
    by (intro i; apply bits_above; [lia|exact He]).
  unfold cpr_lon_of, position_body, byte. cbn [nth].
  bits_by Hhi.
Qed.

Lemma cpr_odd_flag_position_body
    (prefix imf metype addr elat elon ealt : Z) (oddflag : bool) :
  cpr_odd_flag (position_body prefix imf metype addr elat elon ealt oddflag)
  = oddflag.
Proof.
  unfold cpr_odd_flag, position_body, byte. cbn [nth]. mask_ones.
  destruct oddflag; Z.bitblast_core;
    rewrite ?Z.testbit_neg_r by lia; rewrite ?Z.eqb_refl; btauto.
Qed.

Lemma altitude_of_position_body
    (prefix imf metype addr elat elon ealt : Z) (oddflag : bool) :
  0 <= ealt < 2 ^ 12 ->
  altitude_of (position_body prefix imf metype addr elat elon ealt oddflag) = ealt.
Proof.
  intro He.
  assert (Hhi : forall i, 12 <= i -> Z.testbit ealt i = false)
    by (intro i; apply bits_above; [lia|exact He]).
  unfold altitude_of, position_body, byte. cbn [nth].
  destruct oddflag; bits_by Hhi.
Qed.


Lemma velocity_fields_of_body
    (prefix imf addr e_ns e_ew e_vr : Z) (supersonic : bool) :
  (imf = 0 \/ imf = 1) ->
  0 <= e_ns < 2 ^ 11 -> 0 <= e_ew < 2 ^ 11 -> 0 <= e_vr < 2 ^ 10 ->
  let body := velocity_body prefix imf addr e_ns e_ew e_vr supersonic in
  ns_velocity_of body = e_ns /\ ew_velocity_of body = e_ew /\
  vrate_of body = e_vr /\ subtype_of body = (if supersonic then 2 else 1).
Proof.
  intros Himf Hns Hew Hvr body.
  assert (Hn : forall i, 11 <= i -> Z.testbit e_ns i = false)
    by (intro i; apply bits_above; [lia|exact Hns]).
  assert (He : forall i, 11 <= i -> Z.testbit e_ew i = false)
    by (intro i; apply bits_above; [lia|exact Hew]).
  assert (Hv : forall i, 10 <= i -> Z.testbit e_vr i = false)
    by (intro i; apply bits_above; [lia|exact Hvr]).
  subst body.
  unfold ns_velocity_of, ew_velocity_of, vrate_of, subtype_of, velocity_body, byte.
  cbn [nth]. repeat split.
  - bits_by Hn.
  - destruct Himf as [-> | ->];
      [ change (Z.shiftl 0 7) with 0; rewrite Z.lor_0_l
      | change (Z.shiftl 1 7) with (2 ^ 7) ];
      bits_by He.
  - bits_by Hv.
  - destruct supersonic; reflexivity.
Qed.

(** ** The checksum trailer *)

Lemma seal_length (parity : list Z -> Z) (body : list Z) :
  length body = 11%nat -> length (seal parity body) = 14%nat.
Proof.
  intro Hl. unfold seal. cbv zeta. rewrite length_app, Hl. reflexivity.
Qed.

Lemma seal_firstn (parity : list Z -> Z) (body : list Z) :
  length body = 11%nat -> firstn 11 (seal parity body) = body.
Proof.
  intro Hl. unfold seal. cbv zeta.
  rewrite firstn_app, Hl, Nat.sub_diag, firstn_O, app_nil_r.
  rewrite <- Hl. apply firstn_all.
Qed.

Lemma seal_byte_low (parity : list Z -> Z) (body : list Z) (i : nat) :
  (i < length body)%nat -> byte (seal parity body) i = byte body i.
Proof.
  intro Hi. unfold seal, byte. cbv zeta. apply app_nth1, Hi.
Qed.

Lemma big_endian_24 (p : Z) :
  Z.land (Z.shiftr p 16) 0xFF * 65536 + Z.land (Z.shiftr p 8) 0xFF * 256
  + Z.land p 0xFF = p mod 2 ^ 24.
Proof.
  change 0xFF with (Z.ones 8).
  rewrite !Z.land_ones, !Z.shiftr_div_pow2 by lia.
  change (2 ^ 24) with 16777216. change (2 ^ 16) with 65536.
  change (2 ^ 8) with 256.
  Z.div_mod_to_equations. lia.
Qed.

Lemma seal_checksum (parity : list Z -> Z) (body : list Z) :
  length body = 11%nat -> checksum_in_trailer parity (seal parity body).
Proof.
  intro Hl. unfold checksum_in_trailer. rewrite (seal_firstn _ _ Hl).
  cbv zeta.
  assert (H11 : byte (seal parity body) 11 = Z.land (Z.shiftr (parity body) 16) 0xFF).
  { unfold seal, byte. cbv zeta. rewrite app_nth2, Hl by lia. reflexivity. }
  assert (H12 : byte (seal parity body) 12 = Z.land (Z.shiftr (parity body) 8) 0xFF).
  { unfold seal, byte. cbv zeta. rewrite app_nth2, Hl by lia. reflexivity. }
  assert (H13 : byte (seal parity body) 13 = Z.land (parity body) 0xFF).
  { unfold seal, byte. cbv zeta. rewrite app_nth2, Hl by lia. reflexivity. }
  assert (Ht : trailer (seal parity body) = parity body mod 2 ^ 24).
  { unfold trailer. rewrite H11, H12, H13. apply big_endian_24. }
  split; [exact H11|]. split; [exact H12|]. split; [exact H13|].
  split; [exact Ht|].
  intro Hp. rewrite Ht. apply Z.mod_small, Hp.
Qed.

(** ** Ranges of the encoded fields *)


Lemma encode_altitude_range (feet : option Q) :
  0 <= _encode_altitude feet < 2 ^ 12.
Proof.
  destruct feet as [feet|]; [|cbn; lia].
  rewrite encode_altitude_closed.
  set (index := clamp 0 0x7FF _).
  assert (Hi : 0 <= index <= 0x7FF) by (subst index; unfold clamp; lia).
  destruct (altitude_field_layout index Hi) as [-> _].
  change (2 ^ 12) with 4096. Z.div_mod_to_equations. lia.
Qed.

Lemma lor_sign_range (n v : Z) (s : bool) :
  0 <= n -> 0 <= v < 2 ^ n ->
  0 <= Z.lor v (if s then 2 ^ n else 0) < 2 ^ (n + 1).
Proof.
  intros Hn Hv. rewrite Z.pow_add_r, Z.pow_1_r by lia. destruct s.
  - rewrite lor_high_bit by assumption. lia.
  - rewrite Z.lor_0_r. lia.
Qed.

Lemma encode_velocity_range (knots : option Q) (supersonic : bool) :
  0 <= _encode_velocity knots supersonic < 2 ^ 11.
Proof.
  destruct knots as [v|]; [|cbn; lia].
  destruct (encode_velocity_closed v supersonic) as [Hm ->].
  apply (lor_sign_range 10); [lia|]. change (2 ^ 10) with 1024. lia.
Qed.

Lemma encode_vrate_range (fpm : option Q) :
  0 <= _encode_vrate fpm < 2 ^ 10.
Proof.
  destruct fpm as [v|]; [|cbn; lia].
  destruct (encode_vrate_closed v) as [Hm ->].
  apply (lor_sign_range 9); [lia|]. change (2 ^ 9) with 512. lia.
Qed.

(** ** What the public operations return *)

Lemma make_position_frame_error
    (parity : list Z -> Z) (metype addr elat elon ealt : Z) (oddflag : bool)
    (df : string) (e : exn) :
  _make_frame_prefix df = inl e ->
  _make_position_frame parity metype addr elat elon ealt oddflag df = inl e.
Proof. intro H. unfold _make_position_frame. rewrite H. reflexivity. Qed.

Lemma make_velocity_frame_error
    (parity : list Z -> Z) (addr : Z) (ns ew vr : option Q)
    (df : string) (e : exn) :
  _make_frame_prefix df = inl e ->
  make_velocity_frame parity addr ns ew vr df = inl e.
Proof. intro H. unfold make_velocity_frame. cbv zeta. rewrite H. reflexivity. Qed.

Lemma make_position_frame_pair_error
    (parity : list Z -> Z) (addr : Z) (lat lon : Q) (alt : option Q)
    (df : string) (e : exn) :
  _make_frame_prefix df = inl e ->
  make_position_frame_pair parity addr lat lon alt df = inl e.
Proof.
  intro H. unfold make_position_frame_pair. cbv zeta.
  destruct (_cpr_encode lat lon false), (_cpr_encode lat lon true).
  rewrite (make_position_frame_error _ _ _ _ _ _ _ _ _ H). reflexivity.
Qed.

Lemma make_position_frame_pair_closed
    (parity : list Z -> Z) (addr : Z) (lat lon : Q) (alt : option Q)
    (df : string) (prefix imf : Z) :
  _make_frame_prefix df = inr (prefix, imf) ->
  let ealt := _encode_altitude alt in
  let even := _cpr_encode lat lon false in
  let odd := _cpr_encode lat lon true in
  make_position_frame_pair parity addr lat lon alt df
  = inr (seal parity (position_body prefix imf 18 addr (fst even) (snd even) ealt false),
         seal parity (position_body prefix imf 18 addr (fst odd) (snd odd) ealt true)).
Proof.
  intros H ealt even odd. subst ealt even odd.
  unfold make_position_frame_pair. cbv zeta.
  destruct (_cpr_encode lat lon false), (_cpr_encode lat lon true).
  rewrite !(make_position_frame_closed _ _ _ _ _ _ _ _ _ _ H) by lia.
  reflexivity.
Qed.

Lemma make_altitude_only_frame_closed
    (parity : list Z -> Z) (addr : Z) (alt : option Q)
    (df : string) (prefix imf : Z) :
  _make_frame_prefix df = inr (prefix, imf) ->
  make_altitude_only_frame parity addr alt df
  = inr (seal parity (position_body prefix imf 0 addr 0 0 (_encode_altitude alt) false)).
Proof.
  intro H. unfold make_altitude_only_frame.
  apply make_position_frame_closed; [exact H|lia].
Qed.

Lemma sealed_body (parity : list Z -> Z) (body : list Z) :
  length body = 11%nat ->
  length (seal parity body) = 14%nat /\ checksum_in_trailer parity (seal parity body).
Proof.
  intro Hl. split; [apply seal_length | apply seal_checksum]; exact Hl.
Qed.

(** C6: every frame the three public operations return has exactly 14
    bytes, and its bytes 11, 12, 13 are, big-endian, the 24-bit value of
    the external parity function applied to its own bytes 0 to 10 (its low
    24 bits, should the function return more). *)
Theorem frames_carry_their_checksum (parity : list Z -> Z) :
  (forall addr lat lon altitude_ft df even odd,
      make_position_frame_pair parity addr lat lon altitude_ft df = inr (even, odd) ->
      (length even = 14%nat /\ checksum_in_trailer parity even) /\
      (length odd = 14%nat /\ checksum_in_trailer parity odd)) /\
  (forall addr altitude_ft df frame,
      make_altitude_only_frame parity addr altitude_ft df = inr frame ->
      length frame = 14%nat /\ checksum_in_trailer parity frame) /\
  (forall addr nsvel_knots ewvel_knots vrate_fpm df frame,
      make_velocity_frame parity addr nsvel_knots ewvel_knots vrate_fpm df = inr frame ->
      length frame = 14%nat /\ checksum_in_trailer parity frame).
Proof.
  split; [|split].
  - intros addr lat lon alt df even odd H.
    destruct (_make_frame_prefix df) as [e|[prefix imf]] eqn:Hdf.
    + rewrite (make_position_frame_pair_error _ _ _ _ _ _ _ Hdf) in H.
      discriminate H.
    + rewrite (make_position_frame_pair_closed _ _ _ _ _ _ _ _ Hdf) in H.
      cbv zeta in H.
      set (e := seal parity _) in H at 1. set (o := seal parity _) in H.
      assert (He : length e = 14%nat /\ checksum_in_trailer parity e)
        by (apply sealed_body; reflexivity).
      assert (Ho : length o = 14%nat /\ checksum_in_trailer parity o)
        by (apply sealed_body; reflexivity).
      clearbody e o. injection H as <- <-. split; assumption.
  - intros addr alt df frame H.
    destruct (_make_frame_prefix df) as [e|[prefix imf]] eqn:Hdf.
    + unfold make_altitude_only_frame in H.
      rewrite (make_position_frame_error _ _ _ _ _ _ _ _ _ Hdf) in H.
      discriminate H.
    + rewrite (make_altitude_only_frame_closed _ _ _ _ _ _ Hdf) in H.
      injection H as <-. apply sealed_body. reflexivity.
  - intros addr ns ew vr df frame H.
    destruct (_make_frame_prefix df) as [e|[prefix imf]] eqn:Hdf.
    + rewrite (make_velocity_frame_error _ _ _ _ _ _ _ Hdf) in H.
      discriminate H.
    + rewrite (make_velocity_frame_closed _ _ _ _ _ _ _ _ Hdf) in H.
      cbv zeta in H. injection H as <-. apply sealed_body. reflexivity.
Qed.

Lemma frames_carry_their_checksum_witness :
  make_altitude_only_frame mode_s_parity 0xABCDEF (Some 35000%Q) DF18
  = inr [146; 171; 205; 239; 0; 181; 0; 0; 0; 0; 0; 51; 109; 192] /\
  length [146; 171; 205; 239; 0; 181; 0; 0; 0; 0; 0; 51; 109; 192] = 14%nat /\
  checksum_in_trailer mode_s_parity
    [146; 171; 205; 239; 0; 181; 0; 0; 0; 0; 0; 51; 109; 192].
Proof.
  split; [vm_compute; reflexivity|].
  apply (proj1 (proj2 (frames_carry_their_checksum mode_s_parity))
           0xABCDEF (Some 35000%Q) DF18).
  vm_compute. reflexivity.
Defined.

Lemma seal_fields (parity : list Z -> Z) (body : list Z) :
  length body = 11%nat ->
  let frame := seal parity body in
  altitude_of frame = altitude_of body /\
  cpr_odd_flag frame = cpr_odd_flag body /\
  cpr_lat_of frame = cpr_lat_of body /\
  cpr_lon_of frame = cpr_lon_of body /\
  subtype_of frame = subtype_of body /\
  ew_velocity_of frame = ew_velocity_of body /\
  ns_velocity_of frame = ns_velocity_of body /\
  vrate_of frame = vrate_of body.
Proof.
  intros Hl frame. subst frame.
  unfold altitude_of, cpr_odd_flag, cpr_lat_of, cpr_lon_of, subtype_of,
    ew_velocity_of, ns_velocity_of, vrate_of.
  rewrite !seal_byte_low by (rewrite Hl; lia).
  repeat split.
Qed.





(** ** Unsupported variants *)

(** C8: the variant resolution maps DF18 to ((18<<3)|2, 0), DF18ANON to
    ((18<<3)|5, 0) and DF18TRACK to ((18<<3)|2, 1); for every other
    variant it raises ValueError, and so does each of the three public
    operations, returning no frame; on a supported variant the resolved
    format byte is byte 0 of every frame they return. *)
Theorem frame_variant_resolution :
  _make_frame_prefix DF18 = inr (Z.lor (Z.shiftl 18 3) 2, 0) /\
  _make_frame_prefix DF18ANON = inr (Z.lor (Z.shiftl 18 3) 5, 0) /\
  _make_frame_prefix DF18TRACK = inr (Z.lor (Z.shiftl 18 3) 2, 1) /\
  (forall df, ~ supported df ->
     let err := ValueError ("Unsupported DF " ++ df) in
     _make_frame_prefix df = inl err /\
     forall parity addr lat lon altitude_ft nsvel_knots ewvel_knots vrate_fpm,
       make_position_frame_pair parity addr lat lon altitude_ft df = inl err /\
       make_altitude_only_frame parity addr altitude_ft df = inl err /\
       make_velocity_frame parity addr nsvel_knots ewvel_knots vrate_fpm df
       = inl err) /\
  (forall df prefix imf, _make_frame_prefix df = inr (prefix, imf) ->
     forall parity addr lat lon altitude_ft nsvel_knots ewvel_knots vrate_fpm,
       (exists even odd,
          make_position_frame_pair parity addr lat lon altitude_ft df
          = inr (even, odd) /\
          byte even 0 = prefix /\ byte odd 0 = prefix /\
          Z.land (byte even 4) 1 = imf /\ Z.land (byte odd 4) 1 = imf) /\
       (exists frame,
          make_altitude_only_frame parity addr altitude_ft df = inr frame /\
          byte frame 0 = prefix /\ Z.land (byte frame 4) 1 = imf) /\
       (exists frame,
          make_velocity_frame parity addr nsvel_knots ewvel_knots vrate_fpm df
          = inr frame /\
          byte frame 0 = prefix /\ Z.shiftr (byte frame 5) 7 = imf)).
Proof.
  split; [reflexivity|]. split; [reflexivity|]. split; [reflexivity|].
  split.
  - intros df Hno err.
    pose proof (make_frame_prefix_unsupported df Hno) as Herr. fold err in Herr.
    split; [exact Herr|]. intros. repeat split.
    + exact (make_position_frame_pair_error _ _ _ _ _ _ _ Herr).
    + unfold make_altitude_only_frame.
      exact (make_position_frame_error _ _ _ _ _ _ _ _ _ Herr).
    + exact (make_velocity_frame_error _ _ _ _ _ _ _ Herr).
  - intros df prefix imf Hdf parity addr lat lon alt nsvel_knots ewvel_knots vr.
    destruct (make_frame_prefix_inr _ _ _ Hdf) as (_ & _ & Himf).
    split; [|split].
    + eexists. eexists.
      split; [apply (make_position_frame_pair_closed _ _ _ _ _ _ _ _ Hdf)|].
      cbv zeta. rewrite !seal_byte_low by (cbn; lia).
      unfold position_body, byte. cbn [nth].
      destruct Himf as [-> | ->]; repeat split.
    + eexists.
      split; [apply (make_altitude_only_frame_closed _ _ _ _ _ _ Hdf)|].
      rewrite !seal_byte_low by (cbn; lia).
      unfold position_body, byte. cbn [nth].
      destruct Himf as [-> | ->]; repeat split.
    + eexists.
      split; [apply (make_velocity_frame_closed _ _ _ _ _ _ _ _ Hdf)|].
      cbv zeta. rewrite !seal_byte_low by (cbn; lia).
      unfold velocity_body, byte. cbn [nth].
      split; [reflexivity|].
      rewrite Z.shiftr_lor, Z.shiftr_shiftl_l, Z.sub_diag, Z.shiftl_0_r by lia.
      rewrite (Z.shiftr_div_pow2 (Z.land _ 0x07)) by lia.
      mask_ones. rewrite Z.land_ones by lia.
      rewrite Z.div_small, Z.lor_0_r; [reflexivity|].
      pose proof (Z.mod_pos_bound (Z.shiftr (_encode_velocity ewvel_knots
                    (is_supersonic nsvel_knots ewvel_knots)) 8) (2 ^ 3)
                    eq_refl) as Hb.
      change (2 ^ 3) with 8 in *. change (2 ^ 7) with 128. lia.
Qed.

Lemma frame_variant_resolution_witness :
  ~ supported "DF17" /\
  make_velocity_frame mode_s_parity 0xABCDEF (Some 100%Q) None None "DF17"
  = inl (ValueError "Unsupported DF DF17").
Proof.
  assert (Hno : ~ supported "DF17")
    by (intros [H | [H | H]]; discriminate H).
  split; [exact Hno|].
  exact (proj2 (proj2 (proj2
           (proj1 (proj2 (proj2 (proj2 frame_variant_resolution)))
              "DF17"%string Hno)
           mode_s_parity 0xABCDEF 0%Q 0%Q None (Some 100%Q) None None))).
Defined.

(** ** Absent inputs *)

Lemma lor_nonzero (m s : Z) : 1 <= m -> Z.lor m s <> 0.
Proof.
  intros Hm H. apply Z.lor_eq_0_iff in H as [H _]. lia.
Qed.

(** C10: every absent optional input encodes to 0 without an error: the
    three encoders return 0 on None, make_altitude_only_frame with no
    altitude returns a frame whose altitude field and both CPR fields are
    0 (bytes 5 to 10 are all zero), and a velocity frame with no inputs
    has all three fields 0; every present velocity or vertical rate,
    0 included, encodes to a nonzero code. *)
Theorem absent_inputs_encode_to_zero :
  _encode_altitude None = 0 /\
  (forall supersonic, _encode_velocity None supersonic = 0) /\
  _encode_vrate None = 0 /\
  (forall knots supersonic, _encode_velocity (Some knots) supersonic <> 0) /\
  (forall fpm, _encode_vrate (Some fpm) <> 0) /\
  (forall parity addr df, supported df ->
     exists frame,
       make_altitude_only_frame parity addr None df = inr frame /\
       altitude_of frame = 0 /\ cpr_lat_of frame = 0 /\ cpr_lon_of frame = 0 /\
       (forall i, (5 <= i <= 10)%nat -> byte frame i = 0)) /\
  (forall parity addr df, supported df ->
     exists frame,
       make_velocity_frame parity addr None None None df = inr frame /\
       ns_velocity_of frame = 0 /\ ew_velocity_of frame = 0 /\
       vrate_of frame = 0).
Proof.
  split; [reflexivity|]. split; [reflexivity|]. split; [reflexivity|].
  split.
  { intros knots supersonic.
    destruct (encode_velocity_closed knots supersonic) as [Hm ->].
    apply lor_nonzero. lia. }
  split.
  { intros fpm. destruct (encode_vrate_closed fpm) as [Hm ->].
    apply lor_nonzero. lia. }
  split.
  - intros parity addr df Hdf.
    destruct (make_frame_prefix_supported df Hdf) as (prefix & imf & Hp & _).
    eexists. split; [apply (make_altitude_only_frame_closed _ _ _ _ _ _ Hp)|].
    cbn [_encode_altitude].
    set (body := position_body prefix imf 0 addr 0 0 0 false).
    destruct (seal_fields parity body eq_refl) as (-> & _ & -> & -> & _).
    split; [reflexivity|]. split; [reflexivity|]. split; [reflexivity|].
    intros i Hi. rewrite seal_byte_low by (cbn; lia).
    assert (Hcases : (i = 5 \/ i = 6 \/ i = 7 \/ i = 8 \/ i = 9 \/ i = 10)%nat)
      by lia.
    destruct Hcases as [-> | [-> | [-> | [-> | [-> | ->]]]]]; reflexivity.
  - intros parity addr df Hdf.
    destruct (make_frame_prefix_supported df Hdf) as (prefix & imf & Hp & _ & Hi).
    eexists. split; [apply (make_velocity_frame_closed _ _ _ _ _ _ _ _ Hp)|].
    cbv zeta. cbn [is_supersonic orb _encode_velocity _encode_vrate].
    set (body := velocity_body prefix imf addr 0 0 0 false).
    destruct (seal_fields parity body eq_refl) as (_ & _ & _ & _ & _ & -> & -> & ->).
    destruct (velocity_fields_of_body prefix imf addr 0 0 0 false Hi)
      as (Hns & Hew & Hvr & _); try (cbn; lia).
    cbv zeta in Hns, Hew, Hvr. fold body in Hns, Hew, Hvr.
    repeat split; assumption.
Qed.

Lemma absent_inputs_encode_to_zero_witness :
  supported DF18TRACK /\
  exists frame,
    make_altitude_only_frame mode_s_parity 0xABCDEF None DF18TRACK = inr frame /\
    altitude_of frame = 0 /\ cpr_lat_of frame = 0 /\ cpr_lon_of frame = 0 /\
    (forall i, (5 <= i <= 10)%nat -> byte frame i = 0).
Proof.
  assert (Hs : supported DF18TRACK) by (right; right; reflexivity).
  split; [exact Hs|].
  exact (proj1 (proj2 (proj2 (proj2 (proj2 (proj2
           absent_inputs_encode_to_zero)))))
           mode_s_parity 0xABCDEF DF18TRACK Hs).
Defined.

(** ** The velocity frame *)




(** ** The NL lookup *)

Lemma ascending_tail (x : Q) (a : list Q) :
  ascending (x :: a) = true -> ascending a = true.
Proof.
  destruct a as [|y t]; [reflexivity|].
  cbn [ascending]. intro H. apply andb_true_iff in H as [_ H]. exact H.
Qed.

Lemma ascending_head (x : Q) (a : list Q) (j : nat) :
  ascending (x :: a) = true -> (j < length a)%nat -> (x <= nth j a 0)%Q.
Proof.
  revert x j. induction a as [|y t IH]; intros x j H Hj; [cbn in Hj; lia|].
  assert (Hxy : (x <= y)%Q).
  { cbn [ascending] in H. apply andb_true_iff in H as [H _].
    apply Qle_bool_iff, H. }
  destruct j as [|j]; [exact Hxy|].
  cbn [nth]. eapply Qle_trans; [exact Hxy|].
  apply IH; [eapply ascending_tail, H | cbn in Hj; lia].
Qed.

Lemma ascending_nth (a : list Q) :
  ascending a = true ->
  forall i j, (i <= j < length a)%nat -> (nth i a 0 <= nth j a 0)%Q.
Proof.
  induction a as [|x t IH]; intros H i j Hij; [cbn in Hij; lia|].
  destruct i as [|i], j as [|j]; cbn [nth]; cbn [length] in Hij.
  - apply Qle_refl.
  - apply ascending_head; [exact H | lia].
  - lia.
  - apply IH; [eapply ascending_tail, H | lia].
Qed.

(** The loop keeps every element left of [lo] below [x] and every element
    from [hi] on at least [x]; with fuel for the whole interval it ends at
    the boundary between the two. *)
Lemma bisect_loop_spec (a : list Q) (x : Q) :
  ascending a = true ->
  forall fuel lo hi,
    (lo <= hi <= length a)%nat -> (hi - lo <= fuel)%nat ->
    (forall j, (j < lo)%nat -> (nth j a 0 < x)%Q) ->
    (forall j, (hi <= j < length a)%nat -> (x <= nth j a 0)%Q) ->
    let r := bisect_loop fuel a x lo hi in
    (lo <= r <= hi)%nat /\
    (forall j, (j < r)%nat -> (nth j a 0 < x)%Q) /\
    (forall j, (r <= j < length a)%nat -> (x <= nth j a 0)%Q).
Proof.
  intro Hasc. induction fuel as [|fuel IH]; intros lo hi Hb Hf Hlo Hhi.
  - cbn. assert (lo = hi) by lia. subst hi.
    split; [lia|]. split; assumption.
  - cbn [bisect_loop].
    destruct (Nat.ltb_spec lo hi) as [Hlt|Hge].
    + set (mid := ((lo + hi) / 2)%nat).
      assert (Hmid : (lo <= mid < hi)%nat).
      { subst mid. split.
        - apply Nat.div_le_lower_bound; lia.
        - apply Nat.Div0.div_lt_upper_bound; lia. }
      destruct (Qltb (nth mid a 0%Q) x) eqn:Hcmp.
      * apply Qltb_lt in Hcmp.
        destruct (IH (S mid) hi) as (Hr & Hbelow & Habove);
          [lia | lia | | exact Hhi | ].
        { intros j Hj. eapply Qle_lt_trans; [|exact Hcmp].
          apply ascending_nth; [exact Hasc | lia]. }
        split; [lia|]. split; assumption.
      * apply Qltb_ge in Hcmp.
        destruct (IH lo mid) as (Hr & Hbelow & Habove);
          [lia | lia | exact Hlo | | ].
        { intros j Hj. eapply Qle_trans; [exact Hcmp|].
          apply ascending_nth; [exact Hasc | lia]. }
        split; [lia|]. split; assumption.
    + assert (lo = hi) by lia. subst hi.
      split; [lia|]. split; assumption.
Qed.

Lemma bisect_left_spec (a : list Q) (x : Q) :
  ascending a = true ->
  let r := bisect_left a x in
  (r <= length a)%nat /\
  (forall j, (j < r)%nat -> (nth j a 0 < x)%Q) /\
  (forall j, (r <= j < length a)%nat -> (x <= nth j a 0)%Q).
Proof.
  intros Hasc r. subst r. unfold bisect_left.
  destruct (bisect_loop_spec a x Hasc (length a) 0%nat (length a))
    as (Hr & Hbelow & Habove); try lia.
  split; [lia|]. split; assumption.
Qed.

(** A linear scan stops at index [i] when the test fails everywhere before
    [i] and holds at [i]. *)
Lemma find_at {A : Type} (f : A -> bool) (d : A) (l : list A) :
  forall i, (i <= length l)%nat ->
    (forall j, (j < i)%nat -> f (nth j l d) = false) ->
    ((i < length l)%nat -> f (nth i l d) = true) ->
    find f l = nth_error l i.
Proof.
  induction l as [|h t IH]; intros i Hi Hbefore Hat.
  - cbn in Hi. assert (i = 0)%nat by lia. subst i. reflexivity.
  - destruct i as [|i].
    + cbn [find nth_error]. cbn [nth length] in Hat.
      rewrite Hat by lia. reflexivity.
    + cbn [find nth_error].
      pose proof (Hbefore 0%nat ltac:(lia)) as Hh. cbn [nth] in Hh.
      rewrite Hh. apply IH.
      * cbn in Hi. lia.
      * intros j Hj. apply (Hbefore (S j)). lia.
      * intro Hlt. apply Hat. cbn. lia.
Qed.

Lemma find_none_iff {A : Type} (f : A -> bool) (l : list A) :
  find f l = None <-> forall x, In x l -> f x = false.
Proof.
  split; [apply find_none|].
  induction l as [|h t IH]; intro H; [reflexivity|].
  cbn [find]. rewrite (H h) by (left; reflexivity).
  apply IH. intros x Hx. apply H. right. exact Hx.
Qed.

Lemma cpr_nl_lookup (lat : Q) :
  _cpr_nl lat
  = match first_breakpoint (Qabs lat) _NL_TABLE with
    | Some row => snd row
    | None => 1
    end.
Proof.
  unfold _cpr_nl, first_breakpoint. cbv zeta.
  set (x := Qabs lat).
  assert (Hasc : ascending _NL_LATS = true) by (vm_compute; reflexivity).
  destruct (bisect_left_spec _NL_LATS x Hasc) as (Hr & Hbelow & Habove).
  cbv zeta in Hr, Hbelow, Habove.
  set (idx := bisect_left _NL_LATS x) in *.
  assert (Hlen : length _NL_LATS = length _NL_TABLE) by apply length_map.
  assert (Hlenv : length _NL_VALS = length _NL_TABLE) by apply length_map.
  assert (Hnth : forall j, nth j _NL_LATS 0%Q = fst (nth j _NL_TABLE (0%Q, 0))).
  { intro j. unfold _NL_LATS. apply (map_nth fst _NL_TABLE (0%Q, 0)). }
  rewrite (find_at _ (0%Q, 0) _NL_TABLE idx).
  - rewrite Hlenv.
    destruct (Nat.leb_spec (length _NL_TABLE) idx) as [Hout|Hin].
    + apply nth_error_None in Hout. rewrite Hout. reflexivity.
    + rewrite (nth_error_nth' _ (0%Q, 0) Hin).
      unfold _NL_VALS. apply (map_nth snd _NL_TABLE (0%Q, 0)).
  - lia.
  - intros j Hj. rewrite <- Hnth.
    destruct (Qle_bool x (nth j _NL_LATS 0%Q)) eqn:E; [|reflexivity].
    apply Qle_bool_iff in E. exfalso.
    exact (Qlt_not_le _ _ (Hbelow j Hj) E).
  - intro Hin. rewrite <- Hnth. apply Qle_bool_iff, Habove. lia.
Qed.

(** C2: the NL lookup takes the absolute latitude and, by binary search
    over the ascending 59-row table, returns the zone count of the first
    row whose breakpoint is at least that latitude, and 1 when the latitude
    exceeds every breakpoint; the zone count for a frame parity is NL(lat)
    minus 1 (odd) or 0 (even), floored at 1, hence at least 1. *)
Theorem cpr_zone_counts (lat : Q) :
  length _NL_TABLE = 59%nat /\
  ascending _NL_LATS = true /\
  _cpr_nl lat
  = match first_breakpoint (Qabs lat) _NL_TABLE with
    | Some row => snd row
    | None => 1
    end /\
  (first_breakpoint (Qabs lat) _NL_TABLE = None <->
   forall row, In row _NL_TABLE -> (fst row < Qabs lat)%Q) /\
  forall odd : bool,
    _cpr_n lat odd = Z.max 1 (_cpr_nl lat - (if odd then 1 else 0)) /\
    1 <= _cpr_n lat odd.
Proof.
  split; [reflexivity|].
  split; [vm_compute; reflexivity|].
  split; [apply cpr_nl_lookup|].
  split.
  - unfold first_breakpoint. rewrite find_none_iff.
    split; intros H row Hrow.
    + apply Qltb_lt. unfold Qltb. rewrite (H row Hrow). reflexivity.
    + pose proof (H row Hrow) as Hlt. apply Qltb_lt in Hlt.
      unfold Qltb in Hlt. apply negb_true_iff in Hlt. exact Hlt.
  - intro odd. unfold _cpr_n. cbv zeta.
    replace (Z.b2z odd) with (if odd then 1 else 0) by (destruct odd; reflexivity).
    destruct (Z.ltb_spec (_cpr_nl lat - (if odd then 1 else 0)) 1); lia.
Qed.

(** ** The CPR encoder *)

Lemma inject_Z_succ (n : Z) : (inject_Z (n + 1) == inject_Z n + 1)%Q.
Proof. rewrite inject_Z_plus. reflexivity. Qed.





(** * Further properties of the encoder and of the position matcher *)

(** ** Truncation is monotone *)

Lemma py_int_monotone (x y : Q) : (x <= y)%Q -> py_int x <= py_int y.
Proof.
  intro Hxy.
  destruct (Qlt_le_dec x 0) as [Hx|Hx], (Qlt_le_dec y 0) as [Hy|Hy].
  - destruct (py_int_nonpos x (Qlt_le_weak _ _ Hx)) as (_ & _ & Hlo).
    destruct (py_int_nonpos y (Qlt_le_weak _ _ Hy)) as (_ & Hup & _).
    assert (H : (inject_Z (py_int x - 1) < inject_Z (py_int y))%Q).
    { eapply Qlt_le_trans; [exact Hlo|]. eapply Qle_trans; eassumption. }
    rewrite <- Zlt_Qlt in H. lia.
  - destruct (py_int_nonpos x (Qlt_le_weak _ _ Hx)) as (Hnp & _).
    destruct (py_int_nonneg y Hy) as (Hnn & _). lia.
  - exfalso. apply (Qlt_irrefl 0).
    eapply Qle_lt_trans; [exact Hx|]. eapply Qle_lt_trans; eassumption.
  - destruct (py_int_nonneg x Hx) as (_ & Hlo & _).
    destruct (py_int_nonneg y Hy) as (_ & _ & Hup).
    assert (H : (inject_Z (py_int x) < inject_Z (py_int y + 1))%Q).
    { eapply Qle_lt_trans; [exact Hlo|]. eapply Qle_lt_trans; eassumption. }
    rewrite <- Zlt_Qlt in H. lia.
Qed.

(** Truncation of a non-negative number is its floor: the one integer [k]
    with [k <= x < k + 1]. *)
Lemma py_int_unique (x : Q) (k : Z) :
  (inject_Z k <= x)%Q -> (x < inject_Z k + 1)%Q -> (0 <= x)%Q -> py_int x = k.
Proof.
  intros Hlo Hup Hx.
  destruct (py_int_nonneg x Hx) as (_ & Hl & Hu).
  rewrite inject_Z_succ in Hu.
  assert (H1 : (inject_Z (py_int x) < inject_Z (k + 1))%Q)
    by (rewrite inject_Z_succ; lra).
  assert (H2 : (inject_Z k < inject_Z (py_int x + 1))%Q)
    by (rewrite inject_Z_succ; lra).
  rewrite <- Zlt_Qlt in H1, H2. lia.
Qed.

Lemma clamp_monotone (lo hi a b : Z) : a <= b -> clamp lo hi a <= clamp lo hi b.
Proof. unfold clamp. lia. Qed.

Lemma altitude_field_monotone (i j : Z) :
  0 <= i <= 0x7FF -> 0 <= j <= 0x7FF -> i <= j ->
  altitude_field i <= altitude_field j.
Proof.
  intros Hi Hj Hij.
  destruct (altitude_field_layout i Hi) as [-> _].
  destruct (altitude_field_layout j Hj) as [-> _].
  Z.div_mod_to_equations. lia.
Qed.

Lemma altitude_field_strict (i j : Z) :
  0 <= i <= 0x7FF -> 0 <= j <= 0x7FF -> i < j ->
  altitude_field i < altitude_field j.
Proof.
  intros Hi Hj Hij.
  destruct (altitude_field_layout i Hi) as [-> _].
  destruct (altitude_field_layout j Hj) as [-> _].
  Z.div_mod_to_equations. lia.
Qed.

Lemma altitude_quotient_monotone (f1 f2 : Q) :
  (f1 <= f2)%Q -> ((f1 + 1012.5) / 25 <= (f2 + 1012.5) / 25)%Q.
Proof.
  intro H. apply Qmult_le_compat_r; [lra|]. discriminate.
Qed.

(** X1: The altitude field never decreases when the altitude increases. *)
Theorem encode_altitude_monotone (feet1 feet2 : Q) :
  (feet1 <= feet2)%Q ->
  _encode_altitude (Some feet1) <= _encode_altitude (Some feet2).
Proof.
  intro H. rewrite !encode_altitude_closed.
  apply altitude_field_monotone; try (unfold clamp; lia).
  apply clamp_monotone, py_int_monotone, altitude_quotient_monotone, H.
Qed.

Lemma encode_altitude_monotone_witness :
  (-300 <= 41000.5)%Q /\
  _encode_altitude (Some (-300)%Q) <= _encode_altitude (Some 41000.5%Q).
Proof.
  assert (H : (-300 <= 41000.5)%Q) by (vm_compute; discriminate).
  split; [exact H|].
  exact (encode_altitude_monotone (-300)%Q 41000.5%Q H).
Defined.



Lemma grid_quotient (n : Z) :
  ((inject_Z (25 * n - 1000) + 1012.5) / 25 == inject_Z n + 0.5)%Q.
Proof.
  unfold Z.sub. rewrite inject_Z_plus, inject_Z_mult.
  change (inject_Z 25) with 25%Q. change (inject_Z (- (1000))) with (-1000)%Q.
  field.
Qed.

Lemma encode_altitude_on_grid (n : Z) :
  0 <= n <= 0x7FF ->
  _encode_altitude (Some (inject_Z (25 * n - 1000))) = altitude_field n.
Proof.
  intro Hn. rewrite encode_altitude_closed, grid_quotient.
  assert (Hn0 : (0 <= inject_Z n)%Q)
    by (change 0%Q with (inject_Z 0); rewrite <- Zle_Qle; lia).
  rewrite (py_int_unique (inject_Z n + 0.5)%Q n) by lra.
  unfold clamp. rewrite Z.min_r, Z.max_r by lia. reflexivity.
Qed.

(** X3: On the 25 ft grid from -1000 ft to 50175 ft the encoding is exact and
    strictly increasing: step [n] encodes index [n]. *)
Theorem encode_altitude_grid_strictly_increasing (m n : Z) :
  0 <= m -> m < n -> n <= 0x7FF ->
  _encode_altitude (Some (inject_Z (25 * m - 1000))) = altitude_field m /\
  _encode_altitude (Some (inject_Z (25 * n - 1000))) = altitude_field n /\
  _encode_altitude (Some (inject_Z (25 * m - 1000)))
  < _encode_altitude (Some (inject_Z (25 * n - 1000))).
Proof.
  intros Hm Hmn Hn.
  rewrite !encode_altitude_on_grid by lia.
  split; [reflexivity|]. split; [reflexivity|].
  apply altitude_field_strict; lia.
Qed.

Lemma encode_altitude_grid_strictly_increasing_witness :
  0 <= 1439 /\ 1439 < 1440 /\ 1440 <= 0x7FF /\
  _encode_altitude (Some (inject_Z (25 * 1439 - 1000)))
  < _encode_altitude (Some (inject_Z (25 * 1440 - 1000))).
Proof.
  assert (H1 : 0 <= 1439) by lia.
  assert (H2 : 1439 < 1440) by lia.
  assert (H3 : 1440 <= 0x7FF) by lia.
  split; [exact H1|]. split; [exact H2|]. split; [exact H3|].
  exact (proj2 (proj2 (encode_altitude_grid_strictly_increasing 1439 1440 H1 H2 H3))).
Defined.

(** X4: Below the range the index clamps to 0 (field 0x010, the Q-bit alone),
    above it to 0x7FF (field 0xFFF). *)
Theorem encode_altitude_saturates (feet : Q) :
  ((feet < -987.5)%Q -> _encode_altitude (Some feet) = 0x010) /\
  ((50162.5 <= feet)%Q -> _encode_altitude (Some feet) = 0xFFF).
Proof.
  set (q := ((feet + 1012.5) / 25)%Q).
  assert (Hq : (q * 25 == feet + 1012.5)%Q) by (subst q; field).
  split; intro H; rewrite encode_altitude_closed; fold q.
  - assert (Hle : py_int q <= 0).
    { destruct (Qlt_le_dec q 0) as [Hneg|Hpos].
      - apply (py_int_nonpos q (Qlt_le_weak _ _ Hneg)).
      - destruct (py_int_nonneg q Hpos) as (_ & Hl & _).
        assert (Hlt : (inject_Z (py_int q) < inject_Z 1)%Q)
          by (change (inject_Z 1) with 1%Q; lra).
        rewrite <- Zlt_Qlt in Hlt. lia. }
    unfold clamp. rewrite Z.min_r, Z.max_l by lia. reflexivity.
  - assert (Hge : 0x7FF <= py_int q).
    { change 0x7FF with (py_int 2047). apply py_int_monotone. lra. }
    unfold clamp. rewrite Z.min_l, Z.max_r by lia. reflexivity.
Qed.

Lemma encode_altitude_saturates_witness :
  (-2000 < -987.5)%Q /\ _encode_altitude (Some (-2000)%Q) = 0x010 /\
  (60000 >= 50162.5)%Q /\ _encode_altitude (Some 60000%Q) = 0xFFF.
Proof.
  assert (H1 : (-2000 < -987.5)%Q) by reflexivity.
  assert (H2 : (50162.5 <= 60000)%Q) by (vm_compute; discriminate).
  split; [exact H1|].
  split; [exact (proj1 (encode_altitude_saturates (-2000)%Q) H1)|].
  split; [exact H2|].
  exact (proj2 (encode_altitude_saturates 60000%Q) H2).
Defined.

(** ** Velocity and vertical-rate magnitudes *)

Lemma velocity_magnitude (v : Q) (s : bool) :
  Z.land (_encode_velocity (Some v) s) 0x3FF
  = Z.min 1023 (py_int ((if s then Qabs v / 4 else Qabs v) + 1.5)%Q).
Proof.
  destruct (encode_velocity_closed v s) as [Hm ->]. cbv zeta in Hm.
  apply (land_low_high 10); [lia|]. change (2 ^ 10) with 1024. lia.
Qed.







(** X6: The magnitude does not depend on the sign of the component; the sign
    only sets bit 10. *)
Theorem encode_velocity_sign_symmetry (knots : Q) (supersonic : bool) :
  Z.land (_encode_velocity (Some (- knots)%Q) supersonic) 0x3FF
  = Z.land (_encode_velocity (Some knots) supersonic) 0x3FF /\
  ((0 < knots)%Q ->
   _encode_velocity (Some knots) supersonic < 0x400 /\
   _encode_velocity (Some (- knots)%Q) supersonic
   = _encode_velocity (Some knots) supersonic + 0x400).
Proof.
  assert (Hmag : Z.land (_encode_velocity (Some (- knots)%Q) supersonic) 0x3FF
                 = Z.land (_encode_velocity (Some knots) supersonic) 0x3FF).
  { rewrite !velocity_magnitude.
    assert (E : ((if supersonic then Qabs (- knots) / 4 else Qabs (- knots)) + 1.5
                 == (if supersonic then Qabs knots / 4 else Qabs knots) + 1.5)%Q)
      by (destruct supersonic; rewrite Qabs_opp; reflexivity).
    rewrite E. reflexivity. }
  split; [exact Hmag|].
  intro Hpos.
  destruct (encode_velocity_closed knots supersonic) as [Hm Hc].
  destruct (encode_velocity_closed (- knots)%Q supersonic) as [Hm' Hc'].
  cbv zeta in Hm, Hc, Hm', Hc'.
  assert (Hs : Qltb knots 0 = false) by (apply Qltb_ge; lra).
  assert (Hs' : Qltb (- knots) 0 = true) by (apply Qltb_lt; lra).
  rewrite Hs in Hc. rewrite Hs' in Hc'. rewrite Z.lor_0_r in Hc.
  rewrite !velocity_magnitude in Hmag.
  rewrite Hc', Hc, Hmag.
  split; [lia|].
  apply (lor_high_bit 10); [lia|]. change (2 ^ 10) with 1024. lia.
Qed.

Lemma encode_velocity_sign_symmetry_witness :
  (0 < 250)%Q /\
  _encode_velocity (Some (- 250)%Q) true
  = _encode_velocity (Some 250%Q) true + 0x400.
Proof.
  assert (H : (0 < 250)%Q) by reflexivity.
  split; [exact H|].
  exact (proj2 (proj2 (encode_velocity_sign_symmetry 250%Q true) H)).
Defined.



(** ** Frames on supported variants *)

Lemma velocity_frame_fields
    (parity : list Z -> Z) (addr : Z) (ns ew vr : option Q) (df : string) :
  supported df ->
  exists frame,
    make_velocity_frame parity addr ns ew vr df = inr frame /\
    subtype_of frame = (if is_supersonic ns ew then 2 else 1) /\
    ns_velocity_of frame = _encode_velocity ns (is_supersonic ns ew) /\
    ew_velocity_of frame = _encode_velocity ew (is_supersonic ns ew) /\
    vrate_of frame = _encode_vrate vr.
Proof.
  intro Hdf.
  destruct (make_frame_prefix_supported df Hdf) as (prefix & imf & Hp & _ & Hi).
  eexists. split; [apply (make_velocity_frame_closed _ _ _ _ _ _ _ _ Hp)|].
  cbv zeta.
  set (body := velocity_body _ _ _ _ _ _ _).
  destruct (seal_fields parity body eq_refl) as (_ & _ & _ & _ & -> & -> & -> & ->).
  destruct (velocity_fields_of_body prefix imf addr
              (_encode_velocity ns (is_supersonic ns ew))
              (_encode_velocity ew (is_supersonic ns ew))
              (_encode_vrate vr) (is_supersonic ns ew) Hi
              (encode_velocity_range _ _) (encode_velocity_range _ _)
              (encode_vrate_range _)) as (Hns & Hew & Hvr & Hsub).
  cbv zeta in Hns, Hew, Hvr, Hsub. fold body in Hns, Hew, Hvr, Hsub.
  repeat split; assumption.
Qed.

Lemma subsonic_component (c other : option Q) :
  (is_supersonic c other = false \/ is_supersonic other c = false) ->
  Z.land (_encode_velocity c false) 0x3FF <= 1001.
Proof.
  intro Hs. destruct c as [v|]; [|cbn; lia].
  assert (Hv : (Qabs v <= 1000)%Q).
  { apply Qltb_ge. unfold is_supersonic in Hs.
    destruct Hs as [Hs | Hs]; apply orb_false_iff in Hs as [H1 H2]; assumption. }
  rewrite velocity_magnitude.
  assert (H : py_int (Qabs v + 1.5)%Q <= py_int 1001.5%Q)
    by (apply py_int_monotone; lra).
  change (py_int 1001.5%Q) with 1001 in H. lia.
Qed.

(** X8: A subsonic velocity frame (subtype 1) never holds a saturated
    component: with every supplied component at most 1000 kt, both
    magnitude fields are at most 1001. *)
Theorem subsonic_frame_never_saturates
    (parity : list Z -> Z) (addr : Z)
    (nsvel_knots ewvel_knots vrate_fpm : option Q) (df : string) :
  supported df ->
  is_supersonic nsvel_knots ewvel_knots = false ->
  exists frame,
    make_velocity_frame parity addr nsvel_knots ewvel_knots vrate_fpm df
    = inr frame /\
    subtype_of frame = 1 /\
    Z.land (ns_velocity_of frame) 0x3FF <= 1001 /\
    Z.land (ew_velocity_of frame) 0x3FF <= 1001.
Proof.
  intros Hdf Hs.
  destruct (velocity_frame_fields parity addr nsvel_knots ewvel_knots
              vrate_fpm df Hdf) as (frame & Hf & Hsub & Hns & Hew & _).
  rewrite Hs in Hsub, Hns, Hew.
  exists frame. split; [exact Hf|]. split; [exact Hsub|].
  rewrite Hns, Hew. split.
  - apply (subsonic_component nsvel_knots ewvel_knots). left. exact Hs.
  - apply (subsonic_component ewvel_knots nsvel_knots). right. exact Hs.
Qed.

Lemma subsonic_frame_never_saturates_witness :
  supported DF18 /\
  is_supersonic (Some 1000%Q) (Some (-999.9)%Q) = false /\
  exists frame,
    make_velocity_frame mode_s_parity 0x4B1234
      (Some 1000%Q) (Some (-999.9)%Q) None DF18 = inr frame /\
    subtype_of frame = 1 /\
    Z.land (ns_velocity_of frame) 0x3FF <= 1001 /\
    Z.land (ew_velocity_of frame) 0x3FF <= 1001.
Proof.
  assert (Hs : supported DF18) by (left; reflexivity).
  assert (Hv : is_supersonic (Some 1000%Q) (Some (-999.9)%Q) = false)
    by reflexivity.
  split; [exact Hs|]. split; [exact Hv|].
  exact (subsonic_frame_never_saturates mode_s_parity 0x4B1234
           (Some 1000%Q) (Some (-999.9)%Q) None DF18 Hs Hv).
Defined.

Lemma make_frame_prefix_cases (df : string) :
  (supported df /\ exists prefix imf, _make_frame_prefix df = inr (prefix, imf))
  \/ (~ supported df /\ exists e, _make_frame_prefix df = inl e).
Proof.
  destruct (_make_frame_prefix df) as [e|[prefix imf]] eqn:Hdf.
  - right. split; [|exists e; reflexivity].
    intro Hs. destruct (make_frame_prefix_supported df Hs) as (p & i & Hp & _).
    congruence.
  - left. split; [|exists prefix, imf; reflexivity].
    apply (make_frame_prefix_inr _ _ _ Hdf).
Qed.



(** ** Well-formed bytes *)

Lemma seal_bytes (parity : list Z -> Z) (body : list Z) :
  Forall (fun b => 0 <= b < 256) body ->
  Forall (fun b => 0 <= b < 256) (seal parity body).
Proof.
  intro Hb. unfold seal. cbv zeta. apply Forall_app. split; [exact Hb|].
  repeat (apply Forall_cons; [byte_range|]). apply Forall_nil.
Qed.

Lemma position_body_bytes
    (prefix imf metype addr elat elon ealt : Z) (oddflag : bool) :
  (prefix = 146 \/ prefix = 149) -> (imf = 0 \/ imf = 1) -> 0 <= metype < 32 ->
  Forall (fun b => 0 <= b < 256)
    (position_body prefix imf metype addr elat elon ealt oddflag).
Proof.
  intros Hp Hi Hm. unfold position_body.
  destruct Hi as [-> | ->];
    repeat (apply Forall_cons; [byte_range|]); apply Forall_nil.
Qed.

Lemma velocity_body_bytes
    (prefix imf addr e_ns e_ew e_vr : Z) (supersonic : bool) :
  (prefix = 146 \/ prefix = 149) -> (imf = 0 \/ imf = 1) ->
  Forall (fun b => 0 <= b < 256)
    (velocity_body prefix imf addr e_ns e_ew e_vr supersonic).
Proof.
  intros Hp Hi. unfold velocity_body.
  destruct Hi as [-> | ->];
    repeat (apply Forall_cons; [byte_range|]); apply Forall_nil.
Qed.

(** X10: Every frame the three operations return is a sequence of bytes: each
    of its elements lies in [0, 256). *)
Theorem returned_frames_are_bytes (parity : list Z -> Z) :
  (forall addr lat lon altitude_ft df even odd,
      make_position_frame_pair parity addr lat lon altitude_ft df = inr (even, odd) ->
      Forall (fun b => 0 <= b < 256) even /\
      Forall (fun b => 0 <= b < 256) odd) /\
  (forall addr altitude_ft df frame,
      make_altitude_only_frame parity addr altitude_ft df = inr frame ->
      Forall (fun b => 0 <= b < 256) frame) /\
  (forall addr nsvel_knots ewvel_knots vrate_fpm df frame,
      make_velocity_frame parity addr nsvel_knots ewvel_knots vrate_fpm df = inr frame ->
      Forall (fun b => 0 <= b < 256) frame).
Proof.
  split; [|split].
  - intros addr lat lon alt df even odd H.
    destruct (make_frame_prefix_cases df)
      as [(_ & prefix & imf & Hp) | (_ & e & He)].
    + destruct (make_frame_prefix_inr _ _ _ Hp) as (_ & Hpre & Himf).
      rewrite (make_position_frame_pair_closed _ _ _ _ _ _ _ _ Hp) in H.
      cbv zeta in H.
      set (e := seal parity _) in H at 1. set (o := seal parity _) in H.
      assert (He : Forall (fun b => 0 <= b < 256) e)
        by (apply seal_bytes, position_body_bytes; [assumption..|lia]).
      assert (Ho : Forall (fun b => 0 <= b < 256) o)
        by (apply seal_bytes, position_body_bytes; [assumption..|lia]).
      clearbody e o. injection H as <- <-. split; assumption.
    + rewrite (make_position_frame_pair_error _ _ _ _ _ _ _ He) in H.
      discriminate H.
  - intros addr alt df frame H.
    destruct (make_frame_prefix_cases df)
      as [(_ & prefix & imf & Hp) | (_ & e & He)].
    + destruct (make_frame_prefix_inr _ _ _ Hp) as (_ & Hpre & Himf).
      rewrite (make_altitude_only_frame_closed _ _ _ _ _ _ Hp) in H.
      injection H as <-.
      apply seal_bytes, position_body_bytes; [assumption..|lia].
    + unfold make_altitude_only_frame in H.
      rewrite (make_position_frame_error _ _ _ _ _ _ _ _ _ He) in H.
      discriminate H.
  - intros addr ns ew vr df frame H.
    destruct (make_frame_prefix_cases df)
      as [(_ & prefix & imf & Hp) | (_ & e & He)].
    + destruct (make_frame_prefix_inr _ _ _ Hp) as (_ & Hpre & Himf).
      rewrite (make_velocity_frame_closed _ _ _ _ _ _ _ _ Hp) in H.
      cbv zeta in H. injection H as <-.
      apply seal_bytes, velocity_body_bytes; assumption.
    + rewrite (make_velocity_frame_error _ _ _ _ _ _ _ He) in H.
      discriminate H.
Qed.

Lemma returned_frames_are_bytes_witness :
  make_velocity_frame mode_s_parity (-1) (Some 5000%Q) None (Some 40000%Q) DF18ANON
  = inr [149; 255; 255; 255; 154; 0; 0; 127; 247; 252; 0; 64; 119; 103] /\
  Forall (fun b => 0 <= b < 256)
    [149; 255; 255; 255; 154; 0; 0; 127; 247; 252; 0; 64; 119; 103].
Proof.
  assert (H : make_velocity_frame mode_s_parity (-1) (Some 5000%Q) None
                (Some 40000%Q) DF18ANON
              = inr [149; 255; 255; 255; 154; 0; 0; 127; 247; 252; 0; 64; 119; 103])
    by (vm_compute; reflexivity).
  split; [exact H|].
  exact (proj2 (proj2 (returned_frames_are_bytes mode_s_parity))
           (-1) (Some 5000%Q) None (Some 40000%Q) DF18ANON _ H).
Defined.

(** ** The address field *)

Lemma address_bytes (addr : Z) :
  Z.land (Z.shiftr addr 16) 0xFF = Z.land (Z.shiftr (addr mod 2 ^ 24) 16) 0xFF /\
  Z.land (Z.shiftr addr 8) 0xFF = Z.land (Z.shiftr (addr mod 2 ^ 24) 8) 0xFF /\
  Z.land addr 0xFF = Z.land (addr mod 2 ^ 24) 0xFF.
Proof.
  repeat split; mask_ones; Z.bitblast.
Qed.

Lemma position_body_address
    (prefix imf metype addr elat elon ealt : Z) (oddflag : bool) :
  position_body prefix imf metype addr elat elon ealt oddflag
  = position_body prefix imf metype (addr mod 2 ^ 24) elat elon ealt oddflag.
Proof.
  destruct (address_bytes addr) as (H1 & H2 & H3).
  unfold position_body. rewrite H1, H2, H3. reflexivity.
Qed.

Lemma velocity_body_address
    (prefix imf addr e_ns e_ew e_vr : Z) (supersonic : bool) :
  velocity_body prefix imf addr e_ns e_ew e_vr supersonic
  = velocity_body prefix imf (addr mod 2 ^ 24) e_ns e_ew e_vr supersonic.
Proof.
  destruct (address_bytes addr) as (H1 & H2 & H3).
  unfold velocity_body. rewrite H1, H2, H3. reflexivity.
Qed.

Lemma operations_reduce_address
    (parity : list Z -> Z) (addr : Z) (lat lon : Q)
    (alt ns ew vr : option Q) (df : string) :
  make_position_frame_pair parity addr lat lon alt df
  = make_position_frame_pair parity (addr mod 2 ^ 24) lat lon alt df /\
  make_altitude_only_frame parity addr alt df
  = make_altitude_only_frame parity (addr mod 2 ^ 24) alt df /\
  make_velocity_frame parity addr ns ew vr df
  = make_velocity_frame parity (addr mod 2 ^ 24) ns ew vr df.
Proof.
  destruct (make_frame_prefix_cases df)
    as [(_ & prefix & imf & Hp) | (_ & e & He)].
  - rewrite !(make_position_frame_pair_closed _ _ _ _ _ _ _ _ Hp).
    rewrite !(make_altitude_only_frame_closed _ _ _ _ _ _ Hp).
    rewrite !(make_velocity_frame_closed _ _ _ _ _ _ _ _ Hp).
    cbv zeta.
    rewrite (position_body_address _ _ 18 addr _ _ _ false).
    rewrite (position_body_address _ _ 18 addr _ _ _ true).
    rewrite (position_body_address _ _ 0 addr).
    rewrite (velocity_body_address _ _ addr).
    repeat split.
  - rewrite !(make_position_frame_pair_error _ _ _ _ _ _ _ He).
    unfold make_altitude_only_frame.
    rewrite !(make_position_frame_error _ _ _ _ _ _ _ _ _ He).
    rewrite !(make_velocity_frame_error _ _ _ _ _ _ _ He).
    repeat split.
Qed.

(** X11: Only the low 24 bits of the address are significant: two addresses
    that agree modulo 2^24 give the same result in all three operations,
    and a returned frame holds address mod 2^24 big-endian in bytes 1-3. *)
Theorem address_low_24_bits
    (parity : list Z -> Z) (addr addr' : Z) (lat lon : Q)
    (altitude_ft nsvel_knots ewvel_knots vrate_fpm : option Q) (df : string) :
  addr mod 2 ^ 24 = addr' mod 2 ^ 24 ->
  make_position_frame_pair parity addr lat lon altitude_ft df
  = make_position_frame_pair parity addr' lat lon altitude_ft df /\
  make_altitude_only_frame parity addr altitude_ft df
  = make_altitude_only_frame parity addr' altitude_ft df /\
  make_velocity_frame parity addr nsvel_knots ewvel_knots vrate_fpm df
  = make_velocity_frame parity addr' nsvel_knots ewvel_knots vrate_fpm df /\
  (forall frame,
      make_altitude_only_frame parity addr altitude_ft df = inr frame \/
      make_velocity_frame parity addr nsvel_knots ewvel_knots vrate_fpm df
      = inr frame \/
      (exists other,
          make_position_frame_pair parity addr lat lon altitude_ft df
          = inr (frame, other) \/
          make_position_frame_pair parity addr lat lon altitude_ft df
          = inr (other, frame)) ->
      byte frame 1 * 65536 + byte frame 2 * 256 + byte frame 3 = addr mod 2 ^ 24).
Proof.
  intro Hmod.
  destruct (operations_reduce_address parity addr lat lon altitude_ft
              nsvel_knots ewvel_knots vrate_fpm df) as (P & A & V).
  destruct (operations_reduce_address parity addr' lat lon altitude_ft
              nsvel_knots ewvel_knots vrate_fpm df) as (P' & A' & V').
  split; [rewrite P, P', Hmod; reflexivity|].
  split; [rewrite A, A', Hmod; reflexivity|].
  split; [rewrite V, V', Hmod; reflexivity|].
  intros frame H.
  destruct (make_frame_prefix_cases df)
    as [(_ & prefix & imf & Hp) | (_ & e & He)].
  - assert (Hbody : forall body,
               length body = 11%nat ->
               byte body 1 = Z.land (Z.shiftr addr 16) 0xFF ->
               byte body 2 = Z.land (Z.shiftr addr 8) 0xFF ->
               byte body 3 = Z.land addr 0xFF ->
               byte (seal parity body) 1 * 65536 + byte (seal parity body) 2 * 256
               + byte (seal parity body) 3 = addr mod 2 ^ 24).
    { intros body Hl H1 H2 H3.
      rewrite !seal_byte_low by (rewrite Hl; lia).
      rewrite H1, H2, H3. apply big_endian_24. }
    rewrite (make_position_frame_pair_closed _ _ _ _ _ _ _ _ Hp) in H.
    rewrite (make_altitude_only_frame_closed _ _ _ _ _ _ Hp) in H.
    rewrite (make_velocity_frame_closed _ _ _ _ _ _ _ _ Hp) in H.
    cbv zeta in H.
    set (a := position_body prefix imf 0 addr 0 0 _ false) in H.
    set (v := velocity_body prefix imf addr _ _ _ _) in H.
    set (pe := position_body prefix imf 18 addr _ _ _ false) in H.
    set (po := position_body prefix imf 18 addr _ _ _ true) in H.
    assert (Ha : byte (seal parity a) 1 * 65536 + byte (seal parity a) 2 * 256
                 + byte (seal parity a) 3 = addr mod 2 ^ 24)
      by (apply Hbody; reflexivity).
    assert (Hv : byte (seal parity v) 1 * 65536 + byte (seal parity v) 2 * 256
                 + byte (seal parity v) 3 = addr mod 2 ^ 24)
      by (apply Hbody; reflexivity).
    assert (Hpe : byte (seal parity pe) 1 * 65536 + byte (seal parity pe) 2 * 256
                  + byte (seal parity pe) 3 = addr mod 2 ^ 24)
      by (apply Hbody; reflexivity).
    assert (Hpo : byte (seal parity po) 1 * 65536 + byte (seal parity po) 2 * 256
                  + byte (seal parity po) 3 = addr mod 2 ^ 24)
      by (apply Hbody; reflexivity).
    clearbody a v pe po.
    destruct H as [H | [H | [other [H | H]]]].
    + injection H as <-. exact Ha.
    + injection H as <-. exact Hv.
    + injection H as <- _. exact Hpe.
    + injection H as _ <-. exact Hpo.
  - rewrite (make_position_frame_pair_error _ _ _ _ _ _ _ He) in H.
    unfold make_altitude_only_frame in H.
    rewrite (make_position_frame_error _ _ _ _ _ _ _ _ _ He) in H.
    rewrite (make_velocity_frame_error _ _ _ _ _ _ _ He) in H.
    destruct H as [H | [H | [other [H | H]]]]; discriminate H.
Qed.

Lemma address_low_24_bits_witness :
  0x1ABCDEF mod 2 ^ 24 = 0xABCDEF mod 2 ^ 24 /\
  make_velocity_frame mode_s_parity 0x1ABCDEF (Some 100%Q) None None DF18
  = make_velocity_frame mode_s_parity 0xABCDEF (Some 100%Q) None None DF18.
Proof.
  assert (H : 0x1ABCDEF mod 2 ^ 24 = 0xABCDEF mod 2 ^ 24) by reflexivity.
  split; [exact H|].
  exact (proj1 (proj2 (proj2
           (address_low_24_bits mode_s_parity 0x1ABCDEF 0xABCDEF 0%Q 0%Q
              None (Some 100%Q) None None DF18 H)))).
Defined.

(** ** Type codes and payload fields *)

Lemma position_type_code (metype imf : Z) :
  0 <= metype -> (imf = 0 \/ imf = 1) ->
  Z.shiftr (Z.lor (Z.shiftl metype 3) imf) 3 = metype.
Proof.
  intros Hm Hi. rewrite Z.shiftr_lor, Z.shiftr_shiftl_l, Z.sub_diag, Z.shiftl_0_r by lia.
  destruct Hi as [-> | ->]; change (Z.shiftr _ 3) with 0; apply Z.lor_0_r.
Qed.

(** X12: Both frames of a position pair carry ME type code 18 and the encoded
    altitude in their altitude field. *)
Theorem position_pair_type_and_altitude
    (parity : list Z -> Z) (addr : Z) (lat lon : Q) (altitude_ft : option Q)
    (df : string) :
  supported df ->
  exists even odd,
    make_position_frame_pair parity addr lat lon altitude_ft df = inr (even, odd) /\
    Z.shiftr (byte even 4) 3 = 18 /\ Z.shiftr (byte odd 4) 3 = 18 /\
    altitude_of even = _encode_altitude altitude_ft /\
    altitude_of odd = _encode_altitude altitude_ft.
Proof.
  intro Hdf.
  destruct (make_frame_prefix_supported df Hdf) as (prefix & imf & Hp & _ & Hi).
  pose proof (make_position_frame_pair_closed parity addr lat lon altitude_ft
                df prefix imf Hp) as Hpair.
  cbv zeta in Hpair.
  set (ebody := position_body prefix imf 18 addr _ _ _ false) in *.
  set (obody := position_body prefix imf 18 addr _ _ _ true) in *.
  destruct (seal_fields parity ebody eq_refl) as (Ae & _).
  destruct (seal_fields parity obody eq_refl) as (Ao & _).
  cbv zeta in Ae, Ao.
  exists (seal parity ebody), (seal parity obody).
  split; [exact Hpair|].
  rewrite Ae, Ao, !seal_byte_low by (cbn; lia).
  split; [exact (position_type_code 18 imf ltac:(lia) Hi)|].
  split; [exact (position_type_code 18 imf ltac:(lia) Hi)|].
  split.
  - exact (altitude_of_position_body _ _ _ _ _ _ _ false
             (encode_altitude_range altitude_ft)).
  - exact (altitude_of_position_body _ _ _ _ _ _ _ true
             (encode_altitude_range altitude_ft)).
Qed.

Lemma position_pair_type_and_altitude_witness :
  supported DF18ANON /\
  exists even odd,
    make_position_frame_pair mode_s_parity 0x4B1234 46.5%Q 7.25%Q
      (Some 12000%Q) DF18ANON = inr (even, odd) /\
    Z.shiftr (byte even 4) 3 = 18 /\ Z.shiftr (byte odd 4) 3 = 18 /\
    altitude_of even = _encode_altitude (Some 12000%Q) /\
    altitude_of odd = _encode_altitude (Some 12000%Q).
Proof.
  assert (Hs : supported DF18ANON) by (right; left; reflexivity).
  split; [exact Hs|].
  exact (position_pair_type_and_altitude mode_s_parity 0x4B1234 46.5%Q 7.25%Q
           (Some 12000%Q) DF18ANON Hs).
Defined.

(** X13: An altitude-only frame has ME type code 0, the encoded altitude in its
    altitude field, the CPR-parity bit clear and both CPR fields zero,
    whether or not an altitude is supplied. *)
Theorem altitude_only_frame_layout
    (parity : list Z -> Z) (addr : Z) (altitude_ft : option Q) (df : string) :
  supported df ->
  exists frame,
    make_altitude_only_frame parity addr altitude_ft df = inr frame /\
    Z.shiftr (byte frame 4) 3 = 0 /\
    altitude_of frame = _encode_altitude altitude_ft /\
    cpr_odd_flag frame = false /\
    cpr_lat_of frame = 0 /\ cpr_lon_of frame = 0.
Proof.
  intro Hdf.
  destruct (make_frame_prefix_supported df Hdf) as (prefix & imf & Hp & _ & Hi).
  eexists. split; [apply (make_altitude_only_frame_closed _ _ _ _ _ _ Hp)|].
  set (body := position_body prefix imf 0 addr 0 0 _ false).
  destruct (seal_fields parity body eq_refl) as (-> & -> & -> & -> & _).
  rewrite seal_byte_low by (cbn; lia).
  split; [exact (position_type_code 0 imf ltac:(lia) Hi)|].
  split; [exact (altitude_of_position_body _ _ _ _ _ _ _ false
                   (encode_altitude_range altitude_ft))|].
  split; [exact (cpr_odd_flag_position_body _ _ _ _ _ _ _ false)|].
  split.
  - exact (cpr_lat_of_position_body _ _ _ _ 0 _ _ false ltac:(lia)).
  - exact (cpr_lon_of_position_body _ _ _ _ _ 0 _ false ltac:(lia)).
Qed.

Lemma altitude_only_frame_layout_witness :
  supported DF18 /\
  exists frame,
    make_altitude_only_frame mode_s_parity 0x4B1234 (Some 3000%Q) DF18
    = inr frame /\
    Z.shiftr (byte frame 4) 3 = 0 /\
    altitude_of frame = _encode_altitude (Some 3000%Q) /\
    cpr_odd_flag frame = false /\
    cpr_lat_of frame = 0 /\ cpr_lon_of frame = 0.
Proof.
  assert (Hs : supported DF18) by (left; reflexivity).
  split; [exact Hs|].
  exact (altitude_only_frame_layout mode_s_parity 0x4B1234 (Some 3000%Q) DF18 Hs).
Defined.

Lemma velocity_body_fixed_bits
    (prefix imf addr e_ns e_ew e_vr : Z) (supersonic : bool) :
  (imf = 0 \/ imf = 1) ->
  let body := velocity_body prefix imf addr e_ns e_ew e_vr supersonic in
  Z.shiftr (byte body 4) 3 = 19 /\
  Z.land (byte body 5) 0x78 = 0 /\
  Z.testbit (byte body 8) 4 = true /\
  Z.land (byte body 9) 0x03 = 0 /\
  byte body 10 = 0.
Proof.
  intros Hi body. subst body. unfold velocity_body, byte. cbn [nth].
  split; [destruct supersonic; reflexivity|].
  split.
  { rewrite Z.land_lor_distr_l, <- Z.land_assoc.
    change (Z.land 0x07 0x78) with 0. rewrite Z.land_0_r, Z.lor_0_r.
    destruct Hi as [-> | ->]; reflexivity. }
  split.
  { rewrite !Z.lor_spec. change (Z.testbit 0x10 4) with true.
    rewrite orb_true_r. reflexivity. }
  split; [|reflexivity].
  rewrite Z.shiftl_land, <- Z.land_assoc.
  change (Z.land (Z.shiftl 0x3F 2) 0x03) with 0. apply Z.land_0_r.
Qed.

(** X14: A velocity frame has ME type code 19, the encoded vertical rate in its
    vertical-rate field, the source bit (0x10 of byte 8) set, and its
    unused bits clear: bits 6-3 of byte 5, the low two bits of byte 9 and
    all of byte 10. *)
Theorem velocity_frame_layout
    (parity : list Z -> Z) (addr : Z)
    (nsvel_knots ewvel_knots vrate_fpm : option Q) (df : string) :
  supported df ->
  exists frame,
    make_velocity_frame parity addr nsvel_knots ewvel_knots vrate_fpm df
    = inr frame /\
    Z.shiftr (byte frame 4) 3 = 19 /\
    vrate_of frame = _encode_vrate vrate_fpm /\
    Z.testbit (byte frame 8) 4 = true /\
    Z.land (byte frame 5) 0x78 = 0 /\
    Z.land (byte frame 9) 0x03 = 0 /\
    byte frame 10 = 0.
Proof.
  intro Hdf.
  destruct (make_frame_prefix_supported df Hdf) as (prefix & imf & Hp & _ & Hi).
  eexists. split; [apply (make_velocity_frame_closed _ _ _ _ _ _ _ _ Hp)|].
  cbv zeta.
  set (s := is_supersonic nsvel_knots ewvel_knots).
  set (body := velocity_body _ _ _ _ _ _ _).
  destruct (seal_fields parity body eq_refl) as (_ & _ & _ & _ & _ & _ & _ & ->).
  rewrite !seal_byte_low by (cbn; lia).
  destruct (velocity_body_fixed_bits prefix imf addr
              (_encode_velocity nsvel_knots s) (_encode_velocity ewvel_knots s)
              (_encode_vrate vrate_fpm) s Hi) as (H4 & H5 & H8 & H9 & H10).
  cbv zeta in H4, H5, H8, H9, H10. fold body in H4, H5, H8, H9, H10.
  destruct (velocity_fields_of_body prefix imf addr
              (_encode_velocity nsvel_knots s) (_encode_velocity ewvel_knots s)
              (_encode_vrate vrate_fpm) s Hi
              (encode_velocity_range _ _) (encode_velocity_range _ _)
              (encode_vrate_range _)) as (_ & _ & Hvr & _).
  cbv zeta in Hvr. fold body in Hvr.
  repeat split; assumption.
Qed.

Lemma velocity_frame_layout_witness :
  supported DF18TRACK /\
  exists frame,
    make_velocity_frame mode_s_parity 0x4B1234
      (Some 120%Q) (Some (-80)%Q) (Some (-2000)%Q) DF18TRACK = inr frame /\
    Z.shiftr (byte frame 4) 3 = 19 /\
    vrate_of frame = _encode_vrate (Some (-2000)%Q) /\
    Z.testbit (byte frame 8) 4 = true /\
    Z.land (byte frame 5) 0x78 = 0 /\
    Z.land (byte frame 9) 0x03 = 0 /\
    byte frame 10 = 0.
Proof.
  assert (Hs : supported DF18TRACK) by (right; right; reflexivity).
  split; [exact Hs|].
  exact (velocity_frame_layout mode_s_parity 0x4B1234
           (Some 120%Q) (Some (-80)%Q) (Some (-2000)%Q) DF18TRACK Hs).
Defined.

(** ** The CPR modulo and the zone lattice *)















(** ** Shape of the NL function *)

Lemma cpr_nl_zone_count (lat : Q) :
  _cpr_nl lat = zone_count_at (Qabs lat) _NL_TABLE.
Proof. apply cpr_nl_lookup. Qed.

Lemma zone_count_at_bounds (x : Q) (rows : list (Q * Z)) (top : Z) :
  1 <= top -> forallb (fun row => (1 <=? snd row) && (snd row <=? top)) rows = true ->
  1 <= zone_count_at x rows <= top.
Proof.
  intros Htop Hall. unfold zone_count_at, first_breakpoint.
  destruct (find _ rows) as [row|] eqn:Hf; [|lia].
  apply find_some in Hf as [Hin _].
  rewrite forallb_forall in Hall. specialize (Hall row Hin).
  apply andb_true_iff in Hall as [H1 H2]. lia.
Qed.

Lemma zone_count_at_comp (x y : Q) (rows : list (Q * Z)) :
  (x == y)%Q -> zone_count_at x rows = zone_count_at y rows.
Proof.
  intro E. unfold zone_count_at, first_breakpoint.
  induction rows as [|row t IH]; [reflexivity|].
  cbn [find]. rewrite (Qleb_comp x y E (fst row) (fst row) (Qeq_refl _)).
  destruct (Qle_bool y (fst row)); [reflexivity | exact IH].
Qed.

Lemma zone_count_at_monotone (rows : list (Q * Z)) :
  zone_counts_descend rows = true ->
  forall x y, (x <= y)%Q -> zone_count_at y rows <= zone_count_at x rows.
Proof.
  induction rows as [|[b n] t IH]; intros Hd x y Hxy; [reflexivity|].
  cbn [zone_counts_descend] in Hd.
  apply andb_true_iff in Hd as [Hd Ht]. apply andb_true_iff in Hd as [Hn Hall].
  apply Z.leb_le in Hn.
  assert (Hbelow : forall z, zone_count_at z t <= n).
  { intro z. unfold zone_count_at, first_breakpoint.
    destruct (find _ t) as [row|] eqn:Hf; [|exact Hn].
    apply find_some in Hf as [Hin _].
    rewrite forallb_forall in Hall. apply Z.leb_le, Hall, Hin. }
  unfold zone_count_at, first_breakpoint in *. cbn [find fst].
  destruct (Qle_bool x b) eqn:Hx.
  - destruct (Qle_bool y b) eqn:Hy; [cbn; lia|]. apply Hbelow.
  - assert (Hy : Qle_bool y b = false).
    { destruct (Qle_bool y b) eqn:Hy; [|reflexivity].
      apply Qle_bool_iff in Hy. exfalso.
      assert (Hxb : Qle_bool x b = true)
        by (apply Qle_bool_iff; eapply Qle_trans; eassumption).
      congruence. }
    rewrite Hy. apply IH; assumption.
Qed.

(** X18: The zone count is symmetric about the equator and lies between 1 and
    59; an even frame uses NL itself and an odd frame NL - 1, but never
    less than 1, so the parity zone count lies between 1 and 59 (58 for an
    odd frame). *)
Theorem cpr_nl_range_and_symmetry (lat : Q) :
  1 <= _cpr_nl lat <= 59 /\
  _cpr_nl (- lat) = _cpr_nl lat /\
  _cpr_n lat false = _cpr_nl lat /\
  _cpr_n lat true = Z.max 1 (_cpr_nl lat - 1) /\
  1 <= _cpr_n lat true <= 58.
Proof.
  assert (Hb : 1 <= _cpr_nl lat <= 59).
  { rewrite cpr_nl_zone_count. apply zone_count_at_bounds; [lia|].
    vm_compute. reflexivity. }
  split; [exact Hb|].
  split.
  { rewrite !cpr_nl_zone_count. apply zone_count_at_comp, Qabs_opp. }
  unfold _cpr_n. cbv zeta. cbn [Z.b2z]. rewrite Z.sub_0_r.
  destruct (Z.ltb_spec (_cpr_nl lat) 1), (Z.ltb_spec (_cpr_nl lat - 1) 1); lia.
Qed.

(** X19: The zone count never increases with distance from the equator. *)
Theorem cpr_nl_monotone (lat1 lat2 : Q) :
  (Qabs lat1 <= Qabs lat2)%Q -> _cpr_nl lat2 <= _cpr_nl lat1.
Proof.
  intro H. rewrite !cpr_nl_zone_count.
  apply zone_count_at_monotone; [vm_compute; reflexivity | exact H].
Qed.

Lemma cpr_nl_monotone_witness :
  (Qabs 30 <= Qabs (-60))%Q /\ _cpr_nl (-60) <= _cpr_nl 30.
Proof.
  assert (H : (Qabs 30 <= Qabs (-60))%Q) by (vm_compute; discriminate).
  split; [exact H|]. exact (cpr_nl_monotone 30%Q (-60)%Q H).
Defined.

Lemma zone_count_at_found (x : Q) (rows : list (Q * Z)) (p : Q * Z -> bool) :
  forallb (fun row => p row) rows = true ->
  match first_breakpoint x rows with
  | Some row => In row rows /\ (x <= fst row)%Q /\ p row = true
  | None => True
  end.
Proof.
  intro Hall. unfold first_breakpoint.
  destruct (find _ rows) as [row|] eqn:Hf; [|exact I].
  apply find_some in Hf as [Hin Hle].
  split; [exact Hin|]. split; [apply Qle_bool_iff, Hle|].
  rewrite forallb_forall in Hall. apply Hall, Hin.
Qed.

(** X20: The zone count is 59 exactly up to the first breakpoint
    (10.47047130 degrees) and 1 exactly beyond 87 degrees. *)
Theorem cpr_nl_extremes (lat : Q) :
  (_cpr_nl lat = 59 <-> (Qabs lat <= 10.47047130)%Q) /\
  (_cpr_nl lat = 1 <-> (87 < Qabs lat)%Q).
Proof.
  assert (Hb : 1 <= _cpr_nl lat <= 59).
  { rewrite cpr_nl_zone_count. apply zone_count_at_bounds; [lia|].
    vm_compute. reflexivity. }
  assert (Hmono : forall x, (Qabs lat <= x)%Q ->
                            zone_count_at x _NL_TABLE <= _cpr_nl lat).
  { intros x Hx. rewrite cpr_nl_zone_count.
    apply zone_count_at_monotone; [vm_compute; reflexivity | exact Hx]. }
  split; split.
  - intro H59. apply Qnot_lt_le. intro Hgt.
    pose proof (zone_count_at_found (Qabs lat) _NL_TABLE
                  (fun row => (snd row <? 59) || Qle_bool (fst row) 10.47047130%Q)
                  ltac:(vm_compute; reflexivity)) as Hf.
    rewrite cpr_nl_zone_count in H59. unfold zone_count_at in H59.
    destruct (first_breakpoint (Qabs lat) _NL_TABLE) as [row|]; [|discriminate H59].
    destruct Hf as (_ & Hle & Hp). apply orb_true_iff in Hp as [Hp | Hp].
    + apply Z.ltb_lt in Hp. lia.
    + apply Qle_bool_iff in Hp. lra.
  - intro Hle. specialize (Hmono _ Hle).
    change (zone_count_at 10.47047130%Q _NL_TABLE) with 59 in Hmono. lia.
  - intro H1. apply Qnot_le_lt. intro Hle. specialize (Hmono _ Hle).
    change (zone_count_at 87 _NL_TABLE) with 2 in Hmono. lia.
  - intro Hgt.
    pose proof (zone_count_at_found (Qabs lat) _NL_TABLE
                  (fun row => (snd row <? 2) || Qle_bool (fst row) 87)
                  ltac:(vm_compute; reflexivity)) as Hf.
    rewrite cpr_nl_zone_count in Hb |- *. unfold zone_count_at in *.
    destruct (first_breakpoint (Qabs lat) _NL_TABLE) as [row|]; [|reflexivity].
    destruct Hf as (_ & Hle & Hp). apply orb_true_iff in Hp as [Hp | Hp].
    + apply Z.ltb_lt in Hp. lia.
    + apply Qle_bool_iff in Hp. lra.
Qed.

Lemma cpr_nl_extremes_witness :
  (87 < Qabs (-88.2))%Q /\ _cpr_nl (-88.2) = 1.
Proof.
  assert (H : (87 < Qabs (-88.2))%Q) by reflexivity.
  split; [exact H|].
  exact (proj2 (proj2 (cpr_nl_extremes (-88.2)%Q)) H).
Defined.

(** ** The closest ADS-B position *)





(** ** Concrete runs *)

(** The checksum model on a published DF17 message, 8D4840D6202CC371C32CE0
    with parity 576098. *)
Example mode_s_parity_known_message :
  mode_s_parity [0x8D; 0x48; 0x40; 0xD6; 0x20; 0x2C; 0xC3; 0x71; 0xC3; 0x2C; 0xE0]
  = 0x576098.
Proof. vm_compute. reflexivity. Qed.

Example position_pair_47N_8E :
  make_position_frame_pair mode_s_parity 0xABCDEF 47%Q 8%Q (Some 35000%Q) DF18
  = inr ([146; 171; 205; 239; 144; 181; 3; 85; 87; 199; 28; 44; 116; 146],
         [146; 171; 205; 239; 144; 181; 6; 207; 165; 187; 188; 101; 24; 48]).
Proof. vm_compute. reflexivity. Qed.

Example cpr_nl_samples :
  (_cpr_nl 0, _cpr_nl 10.47047130%Q, _cpr_nl (-47)%Q, _cpr_nl 87.5%Q, _cpr_nl 91)
  = (59, 59, 40, 1, 1).
Proof. vm_compute. reflexivity. Qed.

Example cpr_mod_negative : (_cpr_mod (-1) 6 == 5)%Q.
Proof. vm_compute. reflexivity. Qed.

(** Through make_velocity_frame a component of 1021.5 kt is above 1000 kt,
    so the call is supersonic: subtype 2 and the scaled code 256. *)
Example velocity_frame_1021_5 :
  is_supersonic (Some 1021.5%Q) (Some 0%Q) = true /\
  _encode_velocity (Some 1021.5%Q) true = 256 /\
  exists frame,
    make_velocity_frame mode_s_parity 0xABCDEF (Some 1021.5%Q) (Some 0%Q) None DF18
    = inr frame /\
    subtype_of frame = 2 /\ ns_velocity_of frame = 256.
Proof.
  split; [reflexivity|]. split; [reflexivity|].
  eexists. split; [vm_compute; reflexivity|]. split; reflexivity.
Qed.
